(** * History loading hooks, message dispatch and link filter of the chat UI

    A shallow embedding of
      - [frontend/src/hooks/useHistoryLoader.ts]: the hooks [useHistoryLoader]
        and [useAutoHistoryLoader] (state, refs, fetch, polling timer);
      - the [ChatMessages] component's [renderMessage];
      - the [MarkdownRenderer] component's [isValidUrl] and its link renderer.

    JavaScript values are the values [JSON.parse] can produce plus
    [undefined]; a hook call is a computation over an explicit [World]
    (React state, refs, timer table, issued requests, console) that ends
    normally, by [return] or by a thrown value. *)

From Stdlib Require Import String Ascii List Bool Arith ZArith QArith Lia.
From Stdlib Require Import DecimalString DecimalNat.
Import ListNotations.
Open Scope string_scope.
Open Scope nat_scope.
Set Warnings "-register-all".

(* ================================================================== *)
(** ** JavaScript values *)

Inductive JsValue : Type :=
| JUndefined
| JNull
| JBool (b : bool)
| JNumber (q : Q)
| JString (s : string)
| JArray (items : list JsValue)
| JObject (props : list (string * JsValue)).

(** [typeof v] *)
Definition typeof (v : JsValue) : string :=
  match v with
  | JUndefined => "undefined"
  | JNull | JArray _ | JObject _ => "object"
  | JBool _ => "boolean"
  | JNumber _ => "number"
  | JString _ => "string"
  end.

(** ToBoolean: what [!v] and [if (v)] test. *)
Definition truthy (v : JsValue) : bool :=
  match v with
  | JUndefined | JNull => false
  | JBool b => b
  | JNumber q => negb (Qeq_bool q 0)
  | JString s => negb (s =? "")%string
  | JArray _ | JObject _ => true
  end.

Definition isNull (v : JsValue) : bool :=
  match v with JNull => true | _ => false end.

(** [Array.isArray(v)] *)
Definition isArray (v : JsValue) : bool :=
  match v with JArray _ => true | _ => false end.

(** The elements a [for (const x of v)] loop visits, for an array [v]. *)
Definition arrayItems (v : JsValue) : list JsValue :=
  match v with JArray items => items | _ => [] end.

Fixpoint lookup (k : string) (props : list (string * JsValue)) : option JsValue :=
  match props with
  | [] => None
  | (k', v) :: rest => if (k =? k')%string then Some v else lookup k rest
  end.

(** [k in v] for an object [v].  The keys the program asks for ("type",
    "timestamp") are supplied by no prototype, so membership is membership
    among the object's own properties; an array has neither. *)
Definition hasProperty (k : string) (v : JsValue) : bool :=
  match v with
  | JObject props => match lookup k props with Some _ => true | None => false end
  | _ => false
  end.

(** What [v.k] evaluates to when [v] is neither [undefined] nor [null]
    (keys "messages", "sessionId", "timestamp": absent from every
    prototype, so a primitive or an array yields [undefined]). *)
Definition propertyOf (k : string) (v : JsValue) : JsValue :=
  match v with
  | JObject props => match lookup k props with Some x => x | None => JUndefined end
  | _ => JUndefined
  end.

(** Values a [throw] or a rejected promise carries: an [Error] instance
    (with its [message]) or any other value. *)
Inductive Thrown : Type :=
| ErrorObject (message : string)
| ThrownValue (v : JsValue).

(** Number-to-string conversion of a non-negative integer, as a template
    literal performs it. *)
Definition natToString (n : nat) : string :=
  NilEmpty.string_of_uint (Nat.to_uint n).

(* ================================================================== *)
(** ** Hook state and the world a hook call runs in *)

(** Frontend messages ([AllMessage]) are plain objects at run time. *)
Definition AllMessage : Type := JsValue.

(** [interface HistoryLoaderState].  [sessionId] is typed [string | null];
    the hooks store whatever the response body holds under "sessionId". *)
Record HistoryLoaderState : Type := mkState {
  messages : list AllMessage;
  loading : bool;
  error : option string;
  sessionId : JsValue
}.

(** The value both hooks pass to [useState], and [clearHistory] restores. *)
Definition initialState : HistoryLoaderState :=
  {| messages := []; loading := false; error := None; sessionId := JNull |}.

Inductive LogEntry : Type :=
| ConsoleWarn (text : string) (arg : JsValue)
| ConsoleError (text : string) (arg : Thrown)
| ConsoleLog (text : string).

(** The hook arguments of [useAutoHistoryLoader]; an omitted optional
    string is [None]. *)
Record Props : Type := mkProps {
  encodedProjectName : option string;
  sessionIdArg : option string;
  enablePolling : bool
}.

(** An interval timer: its handle, its period in milliseconds and the
    arguments its callback closed over. *)
Record Timer : Type := mkTimer {
  timerId : positive;
  timerPeriod : Z;
  timerProps : Props
}.

Record World : Type := mkWorld {
  hstate : HistoryLoaderState;          (* useState *)
  lastMessageCountRef : nat;            (* useRef<number>(0) *)
  pollingRef : option positive;         (* useRef<Timeout | null>(null) *)
  timers : list Timer;                  (* live setInterval timers *)
  nextTimerId : positive;               (* next handle setInterval returns *)
  fetched : list string;                (* URLs passed to fetch, oldest first *)
  console : list LogEntry               (* console output, oldest first *)
}.

Definition initialWorld : World :=
  {| hstate := initialState; lastMessageCountRef := 0; pollingRef := None;
     timers := []; nextTimerId := 1%positive; fetched := []; console := [] |}.

Definition setState (f : HistoryLoaderState -> HistoryLoaderState) (w : World) : World :=
  {| hstate := f (hstate w); lastMessageCountRef := lastMessageCountRef w;
     pollingRef := pollingRef w; timers := timers w; nextTimerId := nextTimerId w;
     fetched := fetched w; console := console w |}.

Definition setLastMessageCount (n : nat) (w : World) : World :=
  {| hstate := hstate w; lastMessageCountRef := n;
     pollingRef := pollingRef w; timers := timers w; nextTimerId := nextTimerId w;
     fetched := fetched w; console := console w |}.

Definition setPollingRef (r : option positive) (w : World) : World :=
  {| hstate := hstate w; lastMessageCountRef := lastMessageCountRef w;
     pollingRef := r; timers := timers w; nextTimerId := nextTimerId w;
     fetched := fetched w; console := console w |}.

Definition logConsole (e : LogEntry) (w : World) : World :=
  {| hstate := hstate w; lastMessageCountRef := lastMessageCountRef w;
     pollingRef := pollingRef w; timers := timers w; nextTimerId := nextTimerId w;
     fetched := fetched w; console := console w ++ [e] |}.

Definition recordFetch (url : string) (w : World) : World :=
  {| hstate := hstate w; lastMessageCountRef := lastMessageCountRef w;
     pollingRef := pollingRef w; timers := timers w; nextTimerId := nextTimerId w;
     fetched := fetched w ++ [url]; console := console w |}.

(** [clearInterval(t)] *)
Definition clearInterval (t : positive) (w : World) : World :=
  {| hstate := hstate w; lastMessageCountRef := lastMessageCountRef w;
     pollingRef := pollingRef w;
     timers := filter (fun tm => negb (Pos.eqb (timerId tm) t)) (timers w);
     nextTimerId := nextTimerId w; fetched := fetched w; console := console w |}.

(** [setInterval(callback, period)]: a fresh handle, and the timer is live. *)
Definition setInterval (p : Props) (period : Z) (w : World) : positive * World :=
  (nextTimerId w,
   {| hstate := hstate w; lastMessageCountRef := lastMessageCountRef w;
      pollingRef := pollingRef w;
      timers := timers w ++ [mkTimer (nextTimerId w) period p];
      nextTimerId := Pos.succ (nextTimerId w);
      fetched := fetched w; console := console w |}).

(* ================================================================== *)
(** ** Completions: normal, [return], [throw] *)

Inductive Completion (A : Type) : Type :=
| Normal (a : A)
| Returned
| Threw (e : Thrown).
Arguments Normal {A} a.
Arguments Returned {A}.
Arguments Threw {A} e.

Definition Js (A : Type) : Type := World -> Completion A * World.

Definition ret {A} (a : A) : Js A := fun w => (Normal a, w).

Definition bind {A B} (m : Js A) (k : A -> Js B) : Js B :=
  fun w =>
    match m w with
    | (Normal a, w') => k a w'
    | (Returned, w') => (Returned, w')
    | (Threw e, w') => (Threw e, w')
    end.

Definition throw {A} (e : Thrown) : Js A := fun w => (Threw e, w).

Definition return_ {A} : Js A := fun w => (Returned, w).

(** A statement executed for its effect on the world. *)
Definition effect (f : World -> World) : Js unit := fun w => (Normal tt, f w).

Definition readWorld {A} (f : World -> A) : Js A := fun w => (Normal (f w), w).

(** [try { body } catch (e) { handler e }]: a [return] in the body leaves
    the statement, a throw enters the handler. *)
Definition tryCatch (body : Js unit) (handler : Thrown -> Js unit) : Js unit :=
  fun w =>
    match body w with
    | (Threw e, w') => handler e w'
    | r => r
    end.

(** Lifting of a step that either throws or yields a value. *)
Definition liftResult {A} (r : Thrown + A) : Js A :=
  match r with inl e => throw e | inr a => ret a end.

(** Running a function body: the world once the call has settled. *)
Definition runBody (body : Js unit) (w : World) : World := snd (body w).

Declare Scope js_scope.
Delimit Scope js_scope with js.
Notation "x <- m ;; k" := (bind m (fun x => k))
  (at level 61, m at next level, right associativity) : js_scope.
Notation "m ;; k" := (bind m (fun _ => k))
  (at level 61, right associativity) : js_scope.

(* ================================================================== *)
(** ** What a fetch delivers *)

(** The fields of a [Response] the hooks read; [json] is what
    [await response.json()] yields: a parsed body or a rejection. *)
Record Response : Type := mkResponse {
  ok : bool;
  status : nat;
  statusText : string;
  json : Thrown + JsValue
}.

(** What [await fetch(url)] yields: a rejection or a response. *)
Inductive FetchOutcome : Type :=
| FetchRejected (e : Thrown)
| FetchResolved (r : Response).

(** [!s] for a string. *)
Definition emptyString (s : string) : bool := (s =? "")%string.

(** [!s] for an optional string argument. *)
Definition absent (s : option string) : bool :=
  match s with None => true | Some s => emptyString s end.

(** The string of a present argument. *)
Definition argText (s : option string) : string :=
  match s with Some s => s | None => "" end.

(** Polling interval in milliseconds (3 seconds). *)
Definition POLLING_INTERVAL : Z := 3000.

(** Type guard: is the value a [TimestampedSDKMessage]? *)
Definition isTimestampedSDKMessage (message : JsValue) : bool :=
  (typeof message =? "object")%string &&
  negb (isNull message) &&
  hasProperty "type" message &&
  hasProperty "timestamp" message &&
  (typeof (propertyOf "timestamp" message) =? "string")%string.

(** The [catch] block's state update, the same in both hooks. *)
Definition caughtMessage (e : Thrown) : string :=
  match e with
  | ErrorObject message => message
  | ThrownValue _ => "Failed to load conversation history"
  end.

Definition failedState (e : Thrown) (prev : HistoryLoaderState) : HistoryLoaderState :=
  {| messages := messages prev; loading := false;
     error := Some (caughtMessage e); sessionId := sessionId prev |}.

Definition loadingState (prev : HistoryLoaderState) : HistoryLoaderState :=
  {| messages := messages prev; loading := true; error := None;
     sessionId := sessionId prev |}.

Definition loadedState (convertedMessages : list AllMessage) (sid : JsValue)
    (prev : HistoryLoaderState) : HistoryLoaderState :=
  {| messages := convertedMessages; loading := false; error := error prev;
     sessionId := sid |}.

Definition notOkMessage (response : Response) : string :=
  "Failed to load conversation: " ++ natToString (status response) ++ " "
    ++ statusText response.

(* ================================================================== *)
(** ** The hooks of useHistoryLoader.ts *)

Section Hooks.

(** [getConversationUrl] of [config/api]. *)
Variable getConversationUrl : string -> string -> string.

(** [convertConversationHistory] of [useMessageConverter]: the converted
    messages, or the value it throws. *)
Variable convertConversationHistory : list JsValue -> Thrown + list AllMessage.

(** The message of the [TypeError] the engine raises when property [k]
    of [undefined] or [null] is read. *)
Variable nullAccessMessage : JsValue -> string -> string.

Local Open Scope js_scope.

(** [v.k] *)
Definition getMember (k : string) (v : JsValue) : Js JsValue :=
  match v with
  | JUndefined | JNull => throw (ErrorObject (nullAccessMessage v k))
  | _ => ret (propertyOf k v)
  end.

(** [await fetch(url)] *)
Definition awaitFetch (url : string) (outcome : FetchOutcome) : Js Response :=
  effect (recordFetch url);;
  match outcome with
  | FetchRejected e => throw e
  | FetchResolved r => ret r
  end.

(** *** useHistoryLoader *)

(** The loop of [loadHistory] over [conversationHistory.messages]. *)
Fixpoint keepTimestampedWarning (msgs : list JsValue) (timestampedMessages : list JsValue)
    : Js (list JsValue) :=
  match msgs with
  | [] => ret timestampedMessages
  | msg :: rest =>
      if isTimestampedSDKMessage msg
      then keepTimestampedWarning rest (timestampedMessages ++ [msg])
      else effect (logConsole (ConsoleWarn "Skipping invalid message in history:" msg));;
           keepTimestampedWarning rest timestampedMessages
  end.

Definition requiredState (prev : HistoryLoaderState) : HistoryLoaderState :=
  {| messages := messages prev; loading := loading prev;
     error := Some "Encoded project name and session ID are required";
     sessionId := sessionId prev |}.

Definition catchBlock (error : Thrown) : Js unit :=
  effect (logConsole (ConsoleError "Error loading conversation history:" error));;
  effect (setState (failedState error)).

(** [loadHistory] of [useHistoryLoader], given what its fetch delivers. *)
Definition loadHistory (encodedProjectName sessionId : string)
    (outcome : FetchOutcome) : Js unit :=
  if emptyString encodedProjectName || emptyString sessionId then
    effect (setState requiredState);;
    return_
  else
    tryCatch
      (effect (setState loadingState);;
       response <- awaitFetch (getConversationUrl encodedProjectName sessionId) outcome;;
       (if negb (ok response)
        then throw (ErrorObject (notOkMessage response))
        else ret tt);;
       conversationHistory <- liftResult (json response);;
       msgs <- getMember "messages" conversationHistory;;
       (if negb (truthy msgs) || negb (isArray msgs)
        then throw (ErrorObject "Invalid conversation history format")
        else ret tt);;
       timestampedMessages <- keepTimestampedWarning (arrayItems msgs) [];;
       convertedMessages <- liftResult (convertConversationHistory timestampedMessages);;
       effect (setState (loadedState convertedMessages
                           (propertyOf "sessionId" conversationHistory))))
      catchBlock.

(** [clearHistory] of [useHistoryLoader]. *)
Definition clearHistory (w : World) : World :=
  setState (fun _ => initialState) w.

(** *** useAutoHistoryLoader *)

(** The loop of [fetchAndConvert] over [conversationHistory.messages]. *)
Fixpoint keepTimestamped (msgs : list JsValue) (timestampedMessages : list JsValue)
    : list JsValue :=
  match msgs with
  | [] => timestampedMessages
  | msg :: rest =>
      if isTimestampedSDKMessage msg
      then keepTimestamped rest (timestampedMessages ++ [msg])
      else keepTimestamped rest timestampedMessages
  end.

Definition pollingLogText (newMessageCount last : nat) : string :=
  "[Polling] Detected " ++ natToString (newMessageCount - last)
    ++ " new message(s), updating...".

(** The [try] block of [fetchAndConvert] from the point where the fetch
    has settled. *)
Definition afterFetch (isPolling : bool) (outcome : FetchOutcome) : Js unit :=
  response <- match outcome with
              | FetchRejected e => throw e
              | FetchResolved r => ret r
              end;;
  (if negb (ok response)
   then (if negb isPolling
         then throw (ErrorObject (notOkMessage response))
         else ret tt);;
        return_
   else ret tt);;
  conversationHistory <- liftResult (json response);;
  msgs <- getMember "messages" conversationHistory;;
  (if negb (truthy msgs) || negb (isArray msgs)
   then (if negb isPolling
         then throw (ErrorObject "Invalid conversation history format")
         else ret tt);;
        return_
   else ret tt);;
  let newMessageCount := length (arrayItems msgs) in
  last <- readWorld lastMessageCountRef;;
  (if isPolling && (newMessageCount <=? last) then return_ else ret tt);;
  (if isPolling
   then effect (logConsole (ConsoleLog (pollingLogText newMessageCount last)))
   else ret tt);;
  let timestampedMessages := keepTimestamped (arrayItems msgs) [] in
  convertedMessages <- liftResult (convertConversationHistory timestampedMessages);;
  effect (setState (loadedState convertedMessages
                      (propertyOf "sessionId" conversationHistory)));;
  effect (setLastMessageCount newMessageCount).

(** [fetchAndConvert(isPolling)], closed over the hook arguments [p],
    given what its fetch delivers. *)
Definition fetchAndConvert (p : Props) (isPolling : bool)
    (outcome : FetchOutcome) : Js unit :=
  if absent (encodedProjectName p) || absent (sessionIdArg p) then return_
  else
    tryCatch
      ((if negb isPolling then effect (setState loadingState) else ret tt);;
       effect (recordFetch (getConversationUrl (argText (encodedProjectName p))
                                               (argText (sessionIdArg p))));;
       afterFetch isPolling outcome)
      catchBlock.

(** The same call cut at its [await fetch(...)]: the part that runs when
    the function is called, which issues the request (if any) ... *)
Definition fetchAndConvert_begin (p : Props) (isPolling : bool) (w : World)
    : World * option string :=
  if absent (encodedProjectName p) || absent (sessionIdArg p) then (w, None)
  else
    let url := getConversationUrl (argText (encodedProjectName p))
                                  (argText (sessionIdArg p)) in
    (recordFetch url (if negb isPolling then setState loadingState w else w),
     Some url).

(** ... and the part that runs when the request has settled. *)
Definition fetchAndConvert_resume (isPolling : bool) (outcome : FetchOutcome)
    (w : World) : World :=
  runBody (tryCatch (afterFetch isPolling outcome) catchBlock) w.

(** [clearHistory] of [useAutoHistoryLoader]. *)
Definition clearHistoryAuto (w : World) : World :=
  setLastMessageCount 0 (setState (fun _ => initialState) w).

(** The "Initial load" effect: the world after it, and the request it
    issued. *)
Definition initialLoadEffect (p : Props) (w : World) : World * option string :=
  if negb (absent (encodedProjectName p)) && negb (absent (sessionIdArg p)) then
    fetchAndConvert_begin p false w
  else if absent (sessionIdArg p) then
    (setLastMessageCount 0 (setState (fun _ => initialState) w), None)
  else (w, None).

(** The block both the polling effect and its cleanup start with. *)
Definition stopPolling (w : World) : World :=
  match pollingRef w with
  | Some t => setPollingRef None (clearInterval t w)
  | None => w
  end.

(** The "Polling for external updates" effect: the world after it, and
    whether it returned a cleanup function. *)
Definition pollingEffect (p : Props) (w : World) : World * bool :=
  let w1 := stopPolling w in
  if negb (enablePolling p) || absent (encodedProjectName p) || absent (sessionIdArg p)
  then (w1, false)
  else
    let (t, w2) := setInterval p POLLING_INTERVAL w1 in
    (setPollingRef (Some t) w2, true).

(** The cleanup function the polling effect returns. *)
Definition pollingCleanup (w : World) : World := stopPolling w.

End Hooks.

(* ================================================================== *)
(** ** useHistoryLoader between calls

    [loadHistory] is an async function: a call runs up to its
    [await fetch(...)], and its continuation runs when the request
    settles, after whatever other calls did in between. *)

Section HistoryLoaderCalls.

Variable getConversationUrl : string -> string -> string.
Variable convertConversationHistory : list JsValue -> Thrown + list AllMessage.
Variable nullAccessMessage : JsValue -> string -> string.

Local Open Scope js_scope.

(** The part of [loadHistory] that runs when it is called: the world
    after it, and the request it issued (if any). *)
Definition loadHistory_begin (encodedProjectName sessionId : string) (w : World)
    : World * option string :=
  if emptyString encodedProjectName || emptyString sessionId then
    (setState requiredState w, None)
  else
    let url := getConversationUrl encodedProjectName sessionId in
    (recordFetch url (setState loadingState w), Some url).

(** The [try] block of [loadHistory] from the point where the fetch has
    settled. *)
Definition afterLoadFetch (outcome : FetchOutcome) : Js unit :=
  response <- match outcome with
              | FetchRejected e => throw e
              | FetchResolved r => ret r
              end;;
  (if negb (ok response)
   then throw (ErrorObject (notOkMessage response))
   else ret tt);;
  conversationHistory <- liftResult (json response);;
  msgs <- getMember nullAccessMessage "messages" conversationHistory;;
  (if negb (truthy msgs) || negb (isArray msgs)
   then throw (ErrorObject "Invalid conversation history format")
   else ret tt);;
  timestampedMessages <- keepTimestampedWarning (arrayItems msgs) [];;
  convertedMessages <- liftResult (convertConversationHistory timestampedMessages);;
  effect (setState (loadedState convertedMessages
                      (propertyOf "sessionId" conversationHistory))).

(** The part of [loadHistory] that runs when its request has settled. *)
Definition loadHistory_resume (outcome : FetchOutcome) (w : World) : World :=
  runBody (tryCatch (afterLoadFetch outcome) catchBlock) w.

(** A component using [useHistoryLoader]: the hook's world and the
    requests in flight, oldest first. *)
Record LoaderSys : Type := mkLoaderSys {
  loaderWorld : World;
  loaderPending : list string
}.

Definition initialLoader : LoaderSys :=
  {| loaderWorld := initialWorld; loaderPending := [] |}.

Inductive LoaderEvent : Type :=
| CallLoad (encodedProjectName sessionId : string)
| SettleLoad (n : nat) (outcome : FetchOutcome)
| CallClear.

Definition loaderStep (e : LoaderEvent) (s : LoaderSys) : LoaderSys :=
  match e with
  | CallLoad pn sid =>
      let (w1, r) := loadHistory_begin pn sid (loaderWorld s) in
      {| loaderWorld := w1;
         loaderPending := match r with
                          | Some url => loaderPending s ++ [url]
                          | None => loaderPending s
                          end |}
  | SettleLoad n outcome =>
      match nth_error (loaderPending s) n with
      | Some _ =>
          {| loaderWorld := loadHistory_resume outcome (loaderWorld s);
             loaderPending := firstn n (loaderPending s) ++ skipn (S n) (loaderPending s) |}
      | None => s
      end
  | CallClear =>
      {| loaderWorld := clearHistory (loaderWorld s); loaderPending := loaderPending s |}
  end.

(** The component after a sequence of events, oldest first. *)
Definition loaderRun (es : list LoaderEvent) (s : LoaderSys) : LoaderSys :=
  fold_left (fun acc e => loaderStep e acc) es s.

End HistoryLoaderCalls.

(* ================================================================== *)
(** ** The mounted hook as an event-driven system

    [useAutoHistoryLoader] between renders: React runs its effects, the
    interval timer fires, issued requests settle in any order, and the
    component calls [clearHistory] or [loadHistory].  An unmount ends the
    instance: the next mount starts from the initial state and refs, and
    the requests the old instance left in flight settle on that old
    instance only. *)

(** A request that has been issued and has not settled: which kind of
    call issued it, and its URL. *)
Record Request : Type := mkRequest {
  reqPolling : bool;
  reqUrl : string
}.

(** What is left of an instance that was unmounted with requests in
    flight: its count ref, which their continuations still read and write,
    and those requests.  (React drops the state updates of an unmounted
    component.) *)
Record Detached : Type := mkDetached {
  detachedCount : nat;
  detachedPending : list Request
}.

(** [world] holds the state and refs of the current instance of the hook
    (those of [initialWorld] while none is mounted) and what all
    instances share: timer table, requests issued and console. *)
Record Sys : Type := mkSys {
  world : World;
  pending : list Request;         (* requests in flight, oldest first *)
  mounted : option Props;         (* arguments of the last render *)
  cleanupArmed : bool;            (* the polling effect returned a cleanup *)
  detached : list Detached        (* unmounted instances, oldest first *)
}.

Definition initialSys : Sys :=
  {| world := initialWorld; pending := []; mounted := None; cleanupArmed := false;
     detached := [] |}.

Inductive Event : Type :=
| Render (p : Props)
| Unmount
| Tick (t : positive)
| Settle (n : nat) (outcome : FetchOutcome)
| CallClearHistory
| CallLoadHistory
| SettleDetached (i n : nat) (outcome : FetchOutcome).

(** The world a new instance starts in: [useState] and [useRef] give
    their initial values; timers, requests and console are the page's. *)
Definition freshInstance (w : World) : World :=
  {| hstate := initialState; lastMessageCountRef := 0; pollingRef := None;
     timers := timers w; nextTimerId := nextTimerId w;
     fetched := fetched w; console := console w |}.

(** The current instance's state and refs of [live] with what [w'] holds
    of the page. *)
Definition keepInstance (live w' : World) : World :=
  {| hstate := hstate live; lastMessageCountRef := lastMessageCountRef live;
     pollingRef := pollingRef live;
     timers := timers w'; nextTimerId := nextTimerId w';
     fetched := fetched w'; console := console w' |}.

Fixpoint setNth {A : Type} (n : nat) (x : A) (l : list A) : list A :=
  match l, n with
  | [], _ => []
  | _ :: rest, 0 => x :: rest
  | y :: rest, S n' => y :: setNth n' x rest
  end.

Definition optStringEqb (a b : option string) : bool :=
  match a, b with
  | Some x, Some y => (x =? y)%string
  | None, None => true
  | _, _ => false
  end.

(** The dependencies the two effects share: [encodedProjectName],
    [sessionId] (and [fetchAndConvert], which changes with them). *)
Definition sameIdentifiers (p q : Props) : bool :=
  optStringEqb (encodedProjectName p) (encodedProjectName q) &&
  optStringEqb (sessionIdArg p) (sessionIdArg q).

Definition enqueue (polling : bool) (r : option string) (l : list Request) : list Request :=
  match r with
  | Some url => l ++ [mkRequest polling url]
  | None => l
  end.

Definition dequeue (n : nat) (l : list Request) : list Request :=
  firstn n l ++ skipn (S n) l.

Definition findTimer (t : positive) (l : list Timer) : option Timer :=
  find (fun tm => Pos.eqb (timerId tm) t) l.

Section System.

Variable getConversationUrl : string -> string -> string.
Variable convertConversationHistory : list JsValue -> Thrown + list AllMessage.
Variable nullAccessMessage : JsValue -> string -> string.

(** Both effects run (mount, or an identifier changed): the polling
    cleanup of the previous render first, then the effects in source
    order. *)
Definition runAllEffects (p : Props) (s : Sys) : Sys :=
  let w0 := if cleanupArmed s then pollingCleanup (world s) else world s in
  let (w1, r) := initialLoadEffect getConversationUrl p w0 in
  let (w2, armed) := pollingEffect p w1 in
  {| world := w2; pending := enqueue false r (pending s);
     mounted := Some p; cleanupArmed := armed; detached := detached s |}.

(** Only [enablePolling] changed: the polling effect alone re-runs. *)
Definition runPollingEffect (p : Props) (s : Sys) : Sys :=
  let w0 := if cleanupArmed s then pollingCleanup (world s) else world s in
  let (w1, armed) := pollingEffect p w0 in
  {| world := w1; pending := pending s; mounted := Some p; cleanupArmed := armed;
     detached := detached s |}.

Definition step (e : Event) (s : Sys) : Sys :=
  match e with
  | Render p =>
      match mounted s with
      | None => runAllEffects p s
      | Some q =>
          if negb (sameIdentifiers q p) then runAllEffects p s
          else if negb (Bool.eqb (enablePolling q) (enablePolling p))
               then runPollingEffect p s
               else s
      end
  | Unmount =>
      match mounted s with
      | Some _ =>
          let w0 := if cleanupArmed s then pollingCleanup (world s) else world s in
          {| world := freshInstance w0; pending := []; mounted := None;
             cleanupArmed := false;
             detached := detached s
                         ++ [mkDetached (lastMessageCountRef w0) (pending s)] |}
      | None => s
      end
  | Tick t =>
      match findTimer t (timers (world s)) with
      | Some tm =>
          let (w1, r) := fetchAndConvert_begin getConversationUrl (timerProps tm) true (world s) in
          {| world := w1; pending := enqueue true r (pending s);
             mounted := mounted s; cleanupArmed := cleanupArmed s;
             detached := detached s |}
      | None => s
      end
  | Settle n outcome =>
      match nth_error (pending s) n with
      | Some rq =>
          {| world := fetchAndConvert_resume convertConversationHistory nullAccessMessage
                        (reqPolling rq) outcome (world s);
             pending := dequeue n (pending s);
             mounted := mounted s; cleanupArmed := cleanupArmed s;
             detached := detached s |}
      | None => s
      end
  | CallClearHistory =>
      {| world := clearHistoryAuto (world s); pending := pending s;
         mounted := mounted s; cleanupArmed := cleanupArmed s;
         detached := detached s |}
  | CallLoadHistory =>
      match mounted s with
      | Some p =>
          let (w1, r) := fetchAndConvert_begin getConversationUrl p false (world s) in
          {| world := w1; pending := enqueue false r (pending s);
             mounted := mounted s; cleanupArmed := cleanupArmed s;
             detached := detached s |}
      | None => s
      end
  | SettleDetached i n outcome =>
      match nth_error (detached s) i with
      | Some d =>
          match nth_error (detachedPending d) n with
          | Some rq =>
              let w' := fetchAndConvert_resume convertConversationHistory
                          nullAccessMessage (reqPolling rq) outcome
                          (setLastMessageCount (detachedCount d) (world s)) in
              {| world := keepInstance (world s) w'; pending := pending s;
                 mounted := mounted s; cleanupArmed := cleanupArmed s;
                 detached := setNth i (mkDetached (lastMessageCountRef w')
                                         (dequeue n (detachedPending d)))
                                    (detached s) |}
          | None => s
          end
      | None => s
      end
  end.

(** The system after a sequence of events, oldest first. *)
Definition run (es : list Event) (s : Sys) : Sys :=
  fold_left (fun acc e => step e acc) es s.

Inductive reachable : Sys -> Prop :=
| reach_init : reachable initialSys
| reach_step : forall e s, reachable s -> reachable (step e s).

(** Requests in flight that the polling timer issued. *)
Definition pollingInFlight (s : Sys) : nat :=
  length (filter reqPolling (pending s)).

End System.

(* ================================================================== *)
(** ** ChatMessages: [renderMessage] *)

(** The elements [renderMessage] can return: a message component with its
    [key] and [message] props. *)
Inductive MessageElement : Type :=
| SystemMessageComponent (key : string) (message : AllMessage)
| ToolMessageComponent (key : string) (message : AllMessage)
| ToolResultMessageComponent (key : string) (message : AllMessage)
| PlanMessageComponent (key : string) (message : AllMessage)
| ThinkingMessageComponent (key : string) (message : AllMessage)
| TodoMessageComponent (key : string) (message : AllMessage)
| ChatMessageComponent (key : string) (message : AllMessage).

Section ChatMessages.

(** The type guards of [types]. *)
Variables isSystemMessage isToolMessage isToolResultMessage isPlanMessage
          isThinkingMessage isTodoMessage isChatMessage : AllMessage -> bool.

(** String conversion of a value inside a template literal. *)
Variable toText : JsValue -> string.

Definition messageKey (message : AllMessage) (index : nat) : string :=
  toText (propertyOf "timestamp" message) ++ "-" ++ natToString index.

Definition renderMessage (message : AllMessage) (index : nat) : option MessageElement :=
  let key := messageKey message index in
  if isSystemMessage message then Some (SystemMessageComponent key message)
  else if isToolMessage message then Some (ToolMessageComponent key message)
  else if isToolResultMessage message then Some (ToolResultMessageComponent key message)
  else if isPlanMessage message then Some (PlanMessageComponent key message)
  else if isThinkingMessage message then Some (ThinkingMessageComponent key message)
  else if isTodoMessage message then Some (TodoMessageComponent key message)
  else if isChatMessage message then Some (ChatMessageComponent key message)
  else None.

(** The dispatch the description gives: guards paired with their
    components in the order system, tool, tool-result, plan, thinking,
    todo, chat ... *)
Definition dispatchOrder
    : list ((AllMessage -> bool) * (string -> AllMessage -> MessageElement)) :=
  [ (isSystemMessage, SystemMessageComponent);
    (isToolMessage, ToolMessageComponent);
    (isToolResultMessage, ToolResultMessageComponent);
    (isPlanMessage, PlanMessageComponent);
    (isThinkingMessage, ThinkingMessageComponent);
    (isTodoMessage, TodoMessageComponent);
    (isChatMessage, ChatMessageComponent) ].

(** ... and the component of the first guard the message satisfies. *)
Fixpoint firstSatisfied
    (table : list ((AllMessage -> bool) * (string -> AllMessage -> MessageElement)))
    (key : string) (message : AllMessage) : option MessageElement :=
  match table with
  | [] => None
  | (guard, component) :: rest =>
      if guard message then Some (component key message)
      else firstSatisfied rest key message
  end.

End ChatMessages.

(* ================================================================== *)
(** ** MarkdownRenderer: [isValidUrl] and the link renderer *)

(** The field of a [URL] object the filter reads. *)
Record URL : Type := mkURL {
  protocol : string
}.

(** What the [a] renderer returns. *)
Inductive LinkElement (Children : Type) : Type :=
| Span (className : string) (children : Children)
| Anchor (href : option string) (target rel className : string) (children : Children).
Arguments Span {Children} className children.
Arguments Anchor {Children} href target rel className children.

Definition allowedProtocols : list string := ["http:"; "https:"; "mailto:"].

(** [Array.prototype.includes] on strings. *)
Definition includes (l : list string) (s : string) : bool :=
  existsb (fun x => (x =? s)%string) l.

(** [s.startsWith(p)] *)
Definition startsWith (p s : string) : bool := String.prefix p s.

Section Markdown.

(** [new URL(href, base)]: the parsed URL, or [None] when the
    constructor throws. *)
Variable newURL : string -> string -> option URL.

(** [window.location.origin] *)
Variable origin : string.

Definition isValidUrl (href : option string) : bool :=
  match href with
  | None => false
  | Some h =>
      if emptyString h then false
      else
        match newURL h origin with
        | Some url => includes allowedProtocols (protocol url)
        | None => startsWith "/" h || startsWith "#" h
        end
  end.

(** The [a] entry of the renderer's [components]. *)
Definition renderLink {Children : Type} (href : option string) (children : Children)
    : LinkElement Children :=
  if negb (isValidUrl href) then Span "mava-text" children
  else Anchor href "_blank" "noopener noreferrer" "mava-link hover:underline" children.

End Markdown.

(* ================================================================== *)
(** ** ChatMessages: the rendered list and the scroll effects *)

(** [array.map(f)]: [f] receives each element with its index. *)
Fixpoint mapFrom {A B : Type} (f : A -> nat -> B) (start : nat) (l : list A) : list B :=
  match l with
  | [] => []
  | x :: rest => f x start :: mapFrom f (S start) rest
  end.

Definition arrayMap {A B : Type} (f : A -> nat -> B) (l : list A) : list B :=
  mapFrom f 0 l.

(** What the component returns inside its container: the empty state, or
    the mapped messages followed by the loading indicator when
    [isLoading] holds. *)
Inductive ChatView : Type :=
| EmptyStateView
| MessageListView (children : list (option MessageElement)) (loadingShown : bool).

(** The [key] prop of a message element. *)
Definition keyOf (e : MessageElement) : string :=
  match e with
  | SystemMessageComponent key _ | ToolMessageComponent key _
  | ToolResultMessageComponent key _ | PlanMessageComponent key _
  | ThinkingMessageComponent key _ | TodoMessageComponent key _
  | ChatMessageComponent key _ => key
  end.

(** The keys of the elements that are not [null]. *)
Fixpoint keysOf (children : list (option MessageElement)) : list string :=
  match children with
  | [] => []
  | Some e :: rest => keyOf e :: keysOf rest
  | None :: rest => keysOf rest
  end.

Section ChatMessagesView.

Variables isSystemMessage isToolMessage isToolResultMessage isPlanMessage
          isThinkingMessage isTodoMessage isChatMessage : AllMessage -> bool.
Variable toText : JsValue -> string.

Definition chatMessagesView (messages : list AllMessage) (isLoading : bool) : ChatView :=
  if length messages =? 0 then EmptyStateView
  else MessageListView
         (arrayMap (renderMessage isSystemMessage isToolMessage isToolResultMessage
                      isPlanMessage isThinkingMessage isTodoMessage isChatMessage toText)
                   messages)
         isLoading.

End ChatMessagesView.

(** The argument of [scrollToBottom]. *)
Inductive ScrollBehavior : Type := Instant | Smooth.

(** The refs the scroll effects keep, and the scrolls they have asked for
    through [requestAnimationFrame], oldest first. *)
Record ScrollRefs : Type := mkScrollRefs {
  isInitialLoadRef : bool;
  prevMessageCountRef : nat;
  scrollRequests : list ScrollBehavior
}.

Definition initialScrollRefs : ScrollRefs :=
  {| isInitialLoadRef := true; prevMessageCountRef := 0; scrollRequests := [] |}.

(** "Scroll to bottom on initial load", for [messages.length = len]. *)
Definition initialScrollEffect (len : nat) (r : ScrollRefs) : ScrollRefs :=
  if isInitialLoadRef r && (0 <? len)
  then {| isInitialLoadRef := false; prevMessageCountRef := len;
          scrollRequests := scrollRequests r ++ [Instant] |}
  else r.

(** "Handle polling updates", for [messages.length = len]. *)
Definition updateScrollEffect (len : nat) (r : ScrollRefs) : ScrollRefs :=
  if isInitialLoadRef r then r
  else
    let currentCount := len in
    let prevCount := prevMessageCountRef r in
    {| isInitialLoadRef := isInitialLoadRef r;
       prevMessageCountRef := currentCount;
       scrollRequests := if prevCount <? currentCount
                         then scrollRequests r ++ [Smooth]
                         else scrollRequests r |}.

(** A mounted [ChatMessages]: its refs and the [messages.length] of its
    last render ([None] before the first). *)
Record ChatMessagesInstance : Type := mkInstance {
  scrollRefs : ScrollRefs;
  renderedLength : option nat
}.

Definition unmountedChatMessages : ChatMessagesInstance :=
  {| scrollRefs := initialScrollRefs; renderedLength := None |}.

(** A render with a [messages] array of length [len]; [fresh] tells
    whether the array is a different object from the previous render's.
    The first effect depends on [messages.length], the second on
    [messages]; on the first render both run, in source order. *)
Definition renderChatMessages (fresh : bool) (len : nat)
    (c : ChatMessagesInstance) : ChatMessagesInstance :=
  let lengthChanged :=
    match renderedLength c with None => true | Some n => negb (n =? len) end in
  let messagesChanged :=
    match renderedLength c with None => true | Some _ => fresh end in
  let r1 := if lengthChanged then initialScrollEffect len (scrollRefs c)
            else scrollRefs c in
  let r2 := if messagesChanged then updateScrollEffect len r1 else r1 in
  {| scrollRefs := r2; renderedLength := Some len |}.

(** The instance after a sequence of renders, oldest first. *)
Definition renderAll (renders : list (bool * nat)) (c : ChatMessagesInstance)
    : ChatMessagesInstance :=
  fold_left (fun acc r => renderChatMessages (fst r) (snd r) acc) renders c.

(* ================================================================== *)
(** ** MessageContainer *)

Inductive Alignment : Type := AlignLeft | AlignRight | AlignCenter.

(** The [className] of the outer and of the inner [div]. *)
Record ContainerClasses : Type := mkClasses {
  outerClass : string;
  innerClass : string
}.

Definition messageContainer (alignment : Alignment) (colorScheme : string)
    : ContainerClasses :=
  let justifyClass :=
    match alignment with
    | AlignRight => "justify-end"
    | AlignCenter => "justify-center"
    | AlignLeft => "justify-start"
    end in
  let isUserMessage := match alignment with AlignRight => true | _ => false end in
  let widthClass := if isUserMessage then "w-full" else "max-w-[85%] sm:max-w-[75%]" in
  {| outerClass := "mb-6 flex " ++ (if isUserMessage then "justify-start" else justifyClass);
     innerClass := widthClass ++ " rounded-xl px-4 py-3 transition-colors duration-200 "
                   ++ (if isUserMessage then "mava-user-bubble shadow-sm"
                       else "mava-assistant-bubble")
                   ++ " " ++ colorScheme |}.

(** What the scroll effects keep true of a mounted component: before the
    initial scroll nothing has been asked for and no rendered list had a
    message; after it the requests are one instant scroll followed by
    smooth ones. *)
Definition scrollInvariant (c : ChatMessagesInstance) : Prop :=
  if isInitialLoadRef (scrollRefs c)
  then scrollRequests (scrollRefs c) = [] /\
       (renderedLength c = None \/ renderedLength c = Some 0)
  else exists k, scrollRequests (scrollRefs c) = Instant :: repeat Smooth k.

(** With a new array at every render the recorded count follows the
    rendered length. *)
Definition countInvariant (c : ChatMessagesInstance) : Prop :=
  if isInitialLoadRef (scrollRefs c)
  then renderedLength c = None \/ renderedLength c = Some 0
  else renderedLength c = Some (prevMessageCountRef (scrollRefs c)).

(** Does the character occur in the string? *)
Fixpoint occurs (c : ascii) (s : string) : bool :=
  match s with
  | EmptyString => false
  | String c' rest => Ascii.eqb c c' || occurs c rest
  end.

(** Both worlds have issued the same requests. *)
Definition sameFetched (w w' : World) : Prop :=
  fetched w' = fetched w.

(** The hook state and the recorded count are the same in both worlds. *)
Definition sameHookState (w w' : World) : Prop :=
  hstate w' = hstate w /\ lastMessageCountRef w' = lastMessageCountRef w.

(* ================================================================== *)
(** ** A sample environment

    One concrete choice of what the hooks import, and one loaded world,
    on which the statements below are instantiated. *)

Definition sampleUrl (encodedProjectName sessionId : string) : string :=
  "/api/projects/" ++ encodedProjectName ++ "/histories/" ++ sessionId.

Definition sampleConvert (timestampedMessages : list JsValue) : Thrown + list AllMessage :=
  inr timestampedMessages.

Definition sampleNullMessage (v : JsValue) (k : string) : string :=
  "Cannot read properties of null (reading '" ++ k ++ "')".

Definition userMessage (text : string) : JsValue :=
  JObject [("type", JString "user"); ("timestamp", JString "2025-01-01T00:00:00Z");
           ("text", JString text)].

(** An entry without a "timestamp". *)
Definition strayEntry : JsValue := JObject [("type", JString "user")].

Definition sampleHistory (items : list JsValue) : JsValue :=
  JObject [("sessionId", JString "s1"); ("messages", JArray items)].

Definition okResponse (body : JsValue) : Response :=
  {| ok := true; status := 200; statusText := "OK"; json := inr body |}.

Definition sampleProps : Props :=
  {| encodedProjectName := Some "proj"; sessionIdArg := Some "s1"; enablePolling := true |}.

(** A world in which two messages are loaded and recorded. *)
Definition loadedWorld : World :=
  {| hstate := {| messages := [userMessage "a"; userMessage "b"]; loading := false;
                  error := None; sessionId := JString "s1" |};
     lastMessageCountRef := 2; pollingRef := Some 1%positive;
     timers := [mkTimer 1%positive POLLING_INTERVAL sampleProps];
     nextTimerId := 2%positive; fetched := [sampleUrl "proj" "s1"]; console := [] |}.

(** The hook is mounted, its initial load settles, and the timer fires
    twice with no settlement in between. *)
Definition overlappingPolls : list Event :=
  [ Render sampleProps;
    Settle 0 (FetchResolved (okResponse (sampleHistory [userMessage "a"])));
    Tick 1%positive;
    Tick 1%positive ].

(** A stand-in for the [URL] constructor: an absolute reference keeps its
    scheme, a reference that starts with "/" or "#" resolves against the
    base (and fails to parse when the base is empty), anything else fails
    to parse. *)
Definition sampleNewURL (href base : string) : option URL :=
  if startsWith "javascript:" href then Some (mkURL "javascript:")
  else if startsWith "data:" href then Some (mkURL "data:")
  else if startsWith "mailto:" href then Some (mkURL "mailto:")
  else if startsWith "https:" href then Some (mkURL "https:")
  else if startsWith "http:" href then Some (mkURL "http:")
  else if (startsWith "/" href || startsWith "#" href) && negb (emptyString base)
       then Some (mkURL "https:")
       else None.

Definition sampleToText (v : JsValue) : string :=
  match v with JString s => s | _ => "undefined" end.

(** Guards on the "type" field of a message. *)
Definition hasType (t : string) (message : AllMessage) : bool :=
  match propertyOf "type" message with
  | JString s => (s =? t)%string
  | _ => false
  end.

(** Arguments without a session id. *)
Definition noSessionProps : Props :=
  {| encodedProjectName := Some "proj"; sessionIdArg := None; enablePolling := true |}.

(** Arguments without a project name. *)
Definition noProjectProps : Props :=
  {| encodedProjectName := None; sessionIdArg := Some "s1"; enablePolling := true |}.

Definition notFoundResponse : Response :=
  {| ok := false; status := 404; statusText := "Not Found";
     json := inl (ErrorObject "Unexpected token") |}.

(* ================================================================== *)
(** ** Observations and relations on worlds *)

(** Two overlapping calls of [loadHistory]: the first is answered 404,
    then the second is answered with one message. *)
Definition overlappingLoads : list LoaderEvent :=
  [ CallLoad "proj" "s1";
    CallLoad "proj" "s2";
    SettleLoad 0 (FetchResolved notFoundResponse);
    SettleLoad 0 (FetchResolved (okResponse
                    (JObject [("sessionId", JString "s2");
                              ("messages", JArray [userMessage "a"])]))) ].

Definition serverErrorResponse : Response :=
  {| ok := false; status := 500; statusText := "Internal Server Error";
     json := inl (ErrorObject "Unexpected token") |}.

(** The hook is mounted and loads two messages, is unmounted, and is
    mounted again without a project name. *)
Definition remountWithoutProject : list Event :=
  [ Render sampleProps;
    Settle 0 (FetchResolved (okResponse (sampleHistory [userMessage "a"; userMessage "b"])));
    Unmount;
    Render noProjectProps ].

(** The [console.error] entries among console entries. *)
Definition isErrorLog (e : LogEntry) : bool :=
  match e with ConsoleError _ _ => true | _ => false end.

(** While no instance is mounted, the world holds the initial state and
    count and nothing is in flight. *)
Definition freshInvariant (s : Sys) : Prop :=
  mounted s = None ->
  hstate (world s) = initialState /\ lastMessageCountRef (world s) = 0 /\ pending s = [].

(** The warnings among console entries. *)
Definition isWarning (e : LogEntry) : bool :=
  match e with ConsoleWarn _ _ => true | _ => false end.

Definition warnings (l : list LogEntry) : list LogEntry := filter isWarning l.

(** The arguments for which the polling effect installs its timer. *)
Definition pollingOn (p : Props) : bool :=
  enablePolling p && negb (absent (encodedProjectName p)) && negb (absent (sessionIdArg p)).

(** [frame R m]: whatever way [m] ends, the world it ends in is related
    by [R] to the world it started in. *)
Definition frame (R : World -> World -> Prop) {A : Type} (m : Js A) : Prop :=
  forall w, R w (snd (m w)).

(** The timer table and the timer ref are the same in both worlds. *)
Definition sameTimers (w w' : World) : Prop :=
  timers w' = timers w /\ pollingRef w' = pollingRef w /\ nextTimerId w' = nextTimerId w.

(** The console holds the same warnings in both worlds. *)
Definition sameWarnings (w w' : World) : Prop :=
  warnings (console w') = warnings (console w).

(** What the polling effect maintains: with polling on for the mounted
    arguments, exactly the timer the ref holds is live, it has the polling
    period and it closed over those arguments, and a cleanup is armed;
    otherwise no timer is live and the ref is empty. *)
Definition timerInvariant (s : Sys) : Prop :=
  match mounted s with
  | Some p =>
      if pollingOn p
      then exists t, timers (world s) = [mkTimer t POLLING_INTERVAL p] /\
                     pollingRef (world s) = Some t /\ cleanupArmed s = true
      else timers (world s) = [] /\ pollingRef (world s) = None /\ cleanupArmed s = false
  | None => timers (world s) = [] /\ pollingRef (world s) = None /\ cleanupArmed s = false
  end.

(* ================================================================== *)
(** ** Basic facts *)

Lemma emptyString_false (s : string) : s <> "" -> emptyString s = false.
Proof. intro H. unfold emptyString. now apply String.eqb_neq. Qed.

Lemma array_is_truthy (v : JsValue) : isArray v = true -> truthy v = true.
Proof. now destruct v. Qed.

Lemma isArray_items (v : JsValue) : isArray v = true -> v = JArray (arrayItems v).
Proof. now destruct v. Qed.

(** The loop of [fetchAndConvert] is a filter that keeps the order. *)
Lemma keepTimestamped_filter (msgs acc : list JsValue) :
  keepTimestamped msgs acc = (acc ++ filter isTimestampedSDKMessage msgs)%list.
Proof.
  revert acc. induction msgs as [|msg rest IH]; intro acc; simpl.
  - now rewrite app_nil_r.
  - destruct (isTimestampedSDKMessage msg).
    + rewrite IH, <- app_assoc. reflexivity.
    + apply IH.
Qed.

(** The loop of [loadHistory] returns the same filter, never throws or
    returns, and logs one warning per rejected element, in order. *)
Lemma keepTimestampedWarning_spec (msgs acc : list JsValue) (w : World) :
  keepTimestampedWarning msgs acc w =
  (Normal (acc ++ filter isTimestampedSDKMessage msgs)%list,
   fold_left (fun w' e => logConsole e w')
             (map (ConsoleWarn "Skipping invalid message in history:")
                  (filter (fun m => negb (isTimestampedSDKMessage m)) msgs)) w).
Proof.
  revert acc w. induction msgs as [|msg rest IH]; intros acc w; simpl.
  - now rewrite app_nil_r.
  - destruct (isTimestampedSDKMessage msg); simpl.
    + rewrite IH, <- app_assoc. reflexivity.
    + unfold bind, effect. rewrite IH. reflexivity.
Qed.

Lemma fold_logConsole_fields (es : list LogEntry) (w : World) :
  let w' := fold_left (fun w' e => logConsole e w') es w in
  hstate w' = hstate w /\ lastMessageCountRef w' = lastMessageCountRef w /\
  fetched w' = fetched w /\ console w' = (console w ++ es)%list /\
  pollingRef w' = pollingRef w /\ timers w' = timers w.
Proof.
  revert w. induction es as [|e es IH]; intro w; simpl.
  - now rewrite app_nil_r.
  - destruct (IH (logConsole e w)) as (H1 & H2 & H3 & H4 & H5 & H6).
    rewrite H1, H2, H3, H4, H5, H6. simpl. rewrite <- app_assoc. repeat split; reflexivity.
Qed.

(* ================================================================== *)
(** ** useHistoryLoader *)

Section HistoryLoaderFacts.

Variable getConversationUrl : string -> string -> string.
Variable convertConversationHistory : list JsValue -> Thrown + list AllMessage.
Variable nullAccessMessage : JsValue -> string -> string.

Local Abbreviation loadHistory' :=
  (loadHistory getConversationUrl convertConversationHistory nullAccessMessage).

(** [loadHistory] once both identifiers are present and the fetch has
    resolved with an ok response, a messages array and a conversion that
    returns. *)
Lemma loadHistory_success (pn sid : string) (r : Response) (hist : JsValue)
    (items : list JsValue) (converted : list AllMessage) (w : World) :
  pn <> "" -> sid <> "" -> ok r = true -> json r = inr hist ->
  propertyOf "messages" hist = JArray items ->
  convertConversationHistory (filter isTimestampedSDKMessage items) = inr converted ->
  runBody (loadHistory' pn sid (FetchResolved r)) w =
  setState (loadedState converted (propertyOf "sessionId" hist))
    (fold_left (fun w' e => logConsole e w')
       (map (ConsoleWarn "Skipping invalid message in history:")
            (filter (fun m => negb (isTimestampedSDKMessage m)) items))
       (recordFetch (getConversationUrl pn sid) (setState loadingState w))).
Proof.
  intros Hp Hs Hok Hj Hm Hc. unfold loadHistory.
  rewrite (emptyString_false _ Hp), (emptyString_false _ Hs). simpl.
  unfold runBody, tryCatch, awaitFetch, bind, effect, throw, ret, catchBlock. simpl.
  rewrite Hok, Hj. simpl.
  destruct hist; simpl in Hm; try discriminate.
  simpl. unfold ret. rewrite Hm. simpl.
  rewrite keepTimestampedWarning_spec. simpl. rewrite Hc. reflexivity.
Qed.

End HistoryLoaderFacts.

Lemma warnings_are_no_errors (text : string) (l : list JsValue) :
  filter isErrorLog (map (ConsoleWarn text) l) = [].
Proof. induction l as [|m l IH]; [reflexivity | exact IH]. Qed.

Section HistoryLoaderCallFacts.

Variable getConversationUrl : string -> string -> string.
Variable convertConversationHistory : list JsValue -> Thrown + list AllMessage.
Variable nullAccessMessage : JsValue -> string -> string.

Local Abbreviation resumeLoad :=
  (loadHistory_resume convertConversationHistory nullAccessMessage).

(** A call is its synchronous part followed, once the request settles, by
    its continuation. *)
Lemma loadHistory_split (pn sid : string) (outcome : FetchOutcome) (w : World) :
  runBody (loadHistory getConversationUrl convertConversationHistory nullAccessMessage
             pn sid outcome) w =
  match loadHistory_begin getConversationUrl pn sid w with
  | (w1, Some _) => resumeLoad outcome w1
  | (w1, None) => w1
  end.
Proof.
  unfold loadHistory, loadHistory_begin, loadHistory_resume, afterLoadFetch.
  destruct (emptyString pn || emptyString sid); [reflexivity|].
  unfold runBody, tryCatch, awaitFetch, bind, effect. simpl.
  destruct outcome; reflexivity.
Qed.

Lemma resumeLoad_not_ok (r : Response) (w : World) :
  ok r = false ->
  resumeLoad (FetchResolved r) w =
  setState (failedState (ErrorObject (notOkMessage r)))
    (logConsole (ConsoleError "Error loading conversation history:"
                   (ErrorObject (notOkMessage r))) w).
Proof.
  intros Hok. unfold loadHistory_resume, afterLoadFetch.
  unfold runBody, tryCatch, bind, effect, throw, ret, catchBlock. simpl.
  rewrite Hok. reflexivity.
Qed.

(** The text thrown for a body without a messages array: the engine's
    for a body whose "messages" cannot be read, the hook's otherwise. *)
Lemma resumeLoad_no_array (r : Response) (hist : JsValue) (w : World) :
  ok r = true -> json r = inr hist ->
  isArray (propertyOf "messages" hist) = false ->
  resumeLoad (FetchResolved r) w =
  let e := ErrorObject match hist with
                       | JNull | JUndefined => nullAccessMessage hist "messages"
                       | _ => "Invalid conversation history format"
                       end in
  setState (failedState e)
    (logConsole (ConsoleError "Error loading conversation history:" e) w).
Proof.
  intros Hok Hj Harr. unfold loadHistory_resume, afterLoadFetch.
  unfold runBody, tryCatch, bind, effect, throw, ret, catchBlock, liftResult. simpl.
  rewrite Hok, Hj. simpl.
  destruct hist; simpl in *; try reflexivity.
  rewrite Harr, orb_true_r. reflexivity.
Qed.

Lemma resumeLoad_array (r : Response) (hist : JsValue) (items : list JsValue)
    (w : World) :
  ok r = true -> json r = inr hist -> propertyOf "messages" hist = JArray items ->
  resumeLoad (FetchResolved r) w =
  let ws := fold_left (fun w' e => logConsole e w')
              (map (ConsoleWarn "Skipping invalid message in history:")
                   (filter (fun m => negb (isTimestampedSDKMessage m)) items)) w in
  match convertConversationHistory (filter isTimestampedSDKMessage items) with
  | inr converted => setState (loadedState converted (propertyOf "sessionId" hist)) ws
  | inl e =>
      setState (failedState e)
        (logConsole (ConsoleError "Error loading conversation history:" e) ws)
  end.
Proof.
  intros Hok Hj Hm. unfold loadHistory_resume, afterLoadFetch.
  unfold runBody, tryCatch, bind, effect, throw, ret, catchBlock, liftResult. simpl.
  rewrite Hok, Hj. simpl.
  destruct hist; simpl in Hm; try discriminate.
  simpl. unfold ret. rewrite Hm. simpl.
  rewrite keepTimestampedWarning_spec. simpl.
  destruct (convertConversationHistory _); reflexivity.
Qed.

(** Every way the continuation of [loadHistory] can end: in the [catch]
    block or in the final state update, from a world that differs from
    the one at settlement by warnings only. *)
Lemma resumeLoad_cases (outcome : FetchOutcome) (w : World) :
  exists ws,
    hstate ws = hstate w /\ fetched ws = fetched w /\
    ((exists e,
        resumeLoad outcome w =
        setState (failedState e)
          (logConsole (ConsoleError "Error loading conversation history:" e) ws))
     \/
     (exists converted sid',
        resumeLoad outcome w = setState (loadedState converted sid') ws)).
Proof.
  assert (forall e,
    resumeLoad outcome w =
    setState (failedState e)
      (logConsole (ConsoleError "Error loading conversation history:" e) w) ->
    exists ws, hstate ws = hstate w /\ fetched ws = fetched w /\
      ((exists e0, resumeLoad outcome w =
          setState (failedState e0)
            (logConsole (ConsoleError "Error loading conversation history:" e0) ws))
       \/ (exists converted sid',
          resumeLoad outcome w = setState (loadedState converted sid') ws))) as Hfail.
  { intros e He. exists w. split; [reflexivity|]. split; [reflexivity|]. left. now exists e. }
  destruct outcome as [e | r]; [now apply (Hfail e)|].
  destruct (ok r) eqn:Hok; [| eapply Hfail; now apply resumeLoad_not_ok].
  destruct (json r) as [e | hist] eqn:Hj.
  { apply (Hfail e). unfold loadHistory_resume, afterLoadFetch.
    unfold runBody, tryCatch, bind, effect, throw, ret, catchBlock, liftResult. simpl.
    now rewrite Hok, Hj. }
  destruct (isArray (propertyOf "messages" hist)) eqn:Harr;
    [| eapply Hfail; rewrite (resumeLoad_no_array r hist w Hok Hj Harr); reflexivity].
  apply isArray_items in Harr.
  rewrite (resumeLoad_array r hist _ w Hok Hj Harr). cbv zeta.
  match goal with
  | |- context [fold_left ?f ?es w] =>
      destruct (fold_logConsole_fields es w) as (Hst & _ & Hf & _);
      set (ws := fold_left f es w) in *
  end.
  exists ws. split; [exact Hst|]. split; [exact Hf|].
  destruct (convertConversationHistory _) as [e | converted].
  - left. now exists e.
  - right. now eexists _, _.
Qed.

End HistoryLoaderCallFacts.

(* ================================================================== *)
(** ** useAutoHistoryLoader: one call of [fetchAndConvert] *)

Ltac js_unfold :=
  unfold fetchAndConvert, fetchAndConvert_begin, fetchAndConvert_resume, afterFetch,
    runBody, tryCatch, bind, effect, throw, ret, return_, readWorld, catchBlock,
    liftResult, getMember in *.

Section AutoLoaderFacts.

Variable getConversationUrl : string -> string -> string.
Variable convertConversationHistory : list JsValue -> Thrown + list AllMessage.
Variable nullAccessMessage : JsValue -> string -> string.

Local Abbreviation fetchAndConvert' :=
  (fetchAndConvert getConversationUrl convertConversationHistory nullAccessMessage).
Local Abbreviation resume' :=
  (fetchAndConvert_resume convertConversationHistory nullAccessMessage).

(** A call is its synchronous part followed, once the request settles, by
    its continuation. *)
Lemma fetchAndConvert_split (p : Props) (isPolling : bool) (outcome : FetchOutcome)
    (w : World) :
  runBody (fetchAndConvert' p isPolling outcome) w =
  match fetchAndConvert_begin getConversationUrl p isPolling w with
  | (w1, Some _) => resume' isPolling outcome w1
  | (w1, None) => w1
  end.
Proof.
  js_unfold.
  destruct (absent (encodedProjectName p) || absent (sessionIdArg p)); [reflexivity|].
  destruct isPolling; reflexivity.
Qed.

(** Without both identifiers the call does nothing. *)
Lemma fetchAndConvert_absent (p : Props) (isPolling : bool) (outcome : FetchOutcome)
    (w : World) :
  absent (encodedProjectName p) || absent (sessionIdArg p) = true ->
  runBody (fetchAndConvert' p isPolling outcome) w = w.
Proof. intro H. js_unfold. rewrite H. reflexivity. Qed.

(** The continuation of a polling call, by what the fetch delivered. *)
Lemma resume_polling_rejected (e : Thrown) (w : World) :
  resume' true (FetchRejected e) w =
  setState (failedState e)
    (logConsole (ConsoleError "Error loading conversation history:" e) w).
Proof. reflexivity. Qed.

Lemma resume_polling_not_ok (r : Response) (w : World) :
  ok r = false -> resume' true (FetchResolved r) w = w.
Proof. intro H. js_unfold. simpl. rewrite H. reflexivity. Qed.

Lemma resume_polling_json_rejected (r : Response) (e : Thrown) (w : World) :
  ok r = true -> json r = inl e ->
  resume' true (FetchResolved r) w =
  setState (failedState e)
    (logConsole (ConsoleError "Error loading conversation history:" e) w).
Proof. intros H1 H2. js_unfold. simpl. rewrite H1, H2. reflexivity. Qed.

Lemma resume_polling_null_body (r : Response) (hist : JsValue) (w : World) :
  ok r = true -> json r = inr hist -> hist = JNull \/ hist = JUndefined ->
  resume' true (FetchResolved r) w =
  setState (failedState (ErrorObject (nullAccessMessage hist "messages")))
    (logConsole (ConsoleError "Error loading conversation history:"
                   (ErrorObject (nullAccessMessage hist "messages"))) w).
Proof.
  intros H1 H2 H3. js_unfold. simpl. rewrite H1, H2.
  destruct H3 as [-> | ->]; reflexivity.
Qed.

Lemma resume_polling_no_array (r : Response) (hist : JsValue) (w : World) :
  ok r = true -> json r = inr hist -> hist <> JNull -> hist <> JUndefined ->
  isArray (propertyOf "messages" hist) = false ->
  resume' true (FetchResolved r) w = w.
Proof.
  intros H1 H2 H3 H4 H5. js_unfold. simpl. rewrite H1, H2.
  destruct hist; try congruence; simpl in *; try reflexivity.
  rewrite H5, orb_true_r. reflexivity.
Qed.

Lemma resume_polling_no_growth (r : Response) (hist : JsValue) (items : list JsValue)
    (w : World) :
  ok r = true -> json r = inr hist -> propertyOf "messages" hist = JArray items ->
  length items <= lastMessageCountRef w ->
  resume' true (FetchResolved r) w = w.
Proof.
  intros H1 H2 H3 H4. js_unfold. simpl. rewrite H1, H2.
  destruct hist; simpl in H3; try discriminate.
  simpl. rewrite H3. simpl.
  apply Nat.leb_le in H4. rewrite H4. reflexivity.
Qed.

Lemma resume_polling_growth (r : Response) (hist : JsValue) (items : list JsValue)
    (w : World) :
  ok r = true -> json r = inr hist -> propertyOf "messages" hist = JArray items ->
  lastMessageCountRef w < length items ->
  resume' true (FetchResolved r) w =
  let w1 := logConsole (ConsoleLog (pollingLogText (length items) (lastMessageCountRef w))) w in
  match convertConversationHistory (filter isTimestampedSDKMessage items) with
  | inr converted =>
      setLastMessageCount (length items)
        (setState (loadedState converted (propertyOf "sessionId" hist)) w1)
  | inl e =>
      setState (failedState e)
        (logConsole (ConsoleError "Error loading conversation history:" e) w1)
  end.
Proof.
  intros H1 H2 H3 H4. js_unfold. simpl. rewrite H1, H2.
  destruct hist; simpl in H3; try discriminate.
  simpl. rewrite H3. simpl.
  apply Nat.leb_gt in H4. rewrite H4. simpl.
  rewrite keepTimestamped_filter. simpl.
  destruct (convertConversationHistory _); reflexivity.
Qed.

(** Every way a polling continuation can end. *)
Lemma resume_polling_cases (outcome : FetchOutcome) (w : World) :
  resume' true outcome w = w
  \/ (exists e,
        resume' true outcome w =
        setState (failedState e)
          (logConsole (ConsoleError "Error loading conversation history:" e) w))
  \/ (exists r hist items,
        outcome = FetchResolved r /\ ok r = true /\ json r = inr hist /\
        propertyOf "messages" hist = JArray items /\
        lastMessageCountRef w < length items /\
        resume' true outcome w =
        let w1 := logConsole (ConsoleLog (pollingLogText (length items)
                                            (lastMessageCountRef w))) w in
        match convertConversationHistory (filter isTimestampedSDKMessage items) with
        | inr converted =>
            setLastMessageCount (length items)
              (setState (loadedState converted (propertyOf "sessionId" hist)) w1)
        | inl e =>
            setState (failedState e)
              (logConsole (ConsoleError "Error loading conversation history:" e) w1)
        end).
Proof.
  destruct outcome as [e | r].
  - right; left. exists e. apply resume_polling_rejected.
  - destruct (ok r) eqn:Hok; [| left; now apply resume_polling_not_ok].
    destruct (json r) as [e | hist] eqn:Hj.
    { right; left. exists e. now apply resume_polling_json_rejected. }
    destruct (isArray (propertyOf "messages" hist)) eqn:Harr.
    + apply isArray_items in Harr.
      destruct (Nat.le_gt_cases (length (arrayItems (propertyOf "messages" hist)))
                  (lastMessageCountRef w)) as [Hle | Hgt].
      * left. eapply resume_polling_no_growth; eauto.
      * right; right. exists r, hist, (arrayItems (propertyOf "messages" hist)).
        repeat (split; [assumption || reflexivity|]).
        now apply resume_polling_growth.
    + destruct hist;
        try (left; apply (resume_polling_no_array r _ w Hok Hj); congruence || assumption).
      * right; left. eexists. apply (resume_polling_null_body r _ w Hok Hj). now right.
      * right; left. eexists. apply (resume_polling_null_body r _ w Hok Hj). now left.
Qed.

End AutoLoaderFacts.

(* ================================================================== *)
(** ** Frame rules: what a computation leaves related *)
Section Frame.

Variable R : World -> World -> Prop.
Hypothesis R_refl : forall w, R w w.
Hypothesis R_trans : forall a b c, R a b -> R b c -> R a c.

Lemma frame_ret {A} (a : A) : frame R (ret a).
Proof. intro w. apply R_refl. Qed.

Lemma frame_throw {A} (e : Thrown) : frame R (@throw A e).
Proof. intro w. apply R_refl. Qed.

Lemma frame_return {A} : frame R (@return_ A).
Proof. intro w. apply R_refl. Qed.

Lemma frame_readWorld {A} (f : World -> A) : frame R (readWorld f).
Proof. intro w. apply R_refl. Qed.

Lemma frame_effect (f : World -> World) : (forall w, R w (f w)) -> frame R (effect f).
Proof. intros H w. apply H. Qed.

Lemma frame_liftResult {A} (r : Thrown + A) : frame R (liftResult r).
Proof. destruct r; intro w; apply R_refl. Qed.

Lemma frame_bind {A B} (m : Js A) (k : A -> Js B) :
  frame R m -> (forall a, frame R (k a)) -> frame R (bind m k).
Proof.
  intros Hm Hk w. unfold bind. specialize (Hm w).
  destruct (m w) as [[a | | e] w1]; simpl in *; try assumption.
  eapply R_trans; [exact Hm | apply Hk].
Qed.

Lemma frame_tryCatch (body : Js unit) (handler : Thrown -> Js unit) :
  frame R body -> (forall e, frame R (handler e)) -> frame R (tryCatch body handler).
Proof.
  intros Hb Hh w. unfold tryCatch. specialize (Hb w).
  destruct (body w) as [[a | | e] w1]; simpl in *; try assumption.
  eapply R_trans; [exact Hb | apply Hh].
Qed.

Lemma frame_if {A} (c : bool) (m1 m2 : Js A) :
  frame R m1 -> frame R m2 -> frame R (if c then m1 else m2).
Proof. now destruct c. Qed.

Lemma frame_getMember (nullAccessMessage : JsValue -> string -> string)
    (k : string) (v : JsValue) :
  frame R (getMember nullAccessMessage k v).
Proof. destruct v; intro w; apply R_refl. Qed.

Hypothesis R_setState : forall f w, R w (setState f w).
Hypothesis R_setLast : forall n w, R w (setLastMessageCount n w).
Hypothesis R_logError : forall text e w, R w (logConsole (ConsoleError text e) w).
Hypothesis R_logLog : forall text w, R w (logConsole (ConsoleLog text) w).
Hypothesis R_fetch : forall url w, R w (recordFetch url w).

Lemma frame_catchBlock (e : Thrown) : frame R (catchBlock e).
Proof.
  unfold catchBlock. apply frame_bind; [|intros _]; apply frame_effect; auto.
Qed.

Lemma frame_afterFetch convertConversationHistory nullAccessMessage
    (isPolling : bool) (outcome : FetchOutcome) :
  frame R (afterFetch convertConversationHistory nullAccessMessage isPolling outcome).
Proof.
  unfold afterFetch.
  repeat
    lazymatch goal with
    | |- frame _ (bind _ _) => apply frame_bind; [| intro]
    | |- frame _ (if _ then _ else _) => apply frame_if
    | |- frame _ (match ?o with FetchRejected _ => _ | FetchResolved _ => _ end) =>
        destruct o
    | |- frame _ (ret _) => apply frame_ret
    | |- frame _ (throw _) => apply frame_throw
    | |- frame _ return_ => apply frame_return
    | |- frame _ (readWorld _) => apply frame_readWorld
    | |- frame _ (liftResult _) => apply frame_liftResult
    | |- frame _ (getMember _ _ _) => apply frame_getMember
    | |- frame _ (effect _) => apply frame_effect; auto
    end.
Qed.

(** Any relation the hook's own updates respect is kept by a whole call
    of [fetchAndConvert] ... *)
Lemma frame_fetchAndConvert getConversationUrl convertConversationHistory nullAccessMessage
    (p : Props) (isPolling : bool) (outcome : FetchOutcome) :
  frame R (fetchAndConvert getConversationUrl convertConversationHistory
             nullAccessMessage p isPolling outcome).
Proof.
  unfold fetchAndConvert. apply frame_if; [apply frame_return|].
  apply frame_tryCatch; [| apply frame_catchBlock].
  apply frame_bind; [apply frame_if; [apply frame_effect; auto | apply frame_ret] | intros _].
  apply frame_bind; [apply frame_effect; auto | intros _].
  apply frame_afterFetch.
Qed.

(** ... by its continuation ... *)
Lemma frame_resume convertConversationHistory nullAccessMessage
    (isPolling : bool) (outcome : FetchOutcome) (w : World) :
  R w (fetchAndConvert_resume convertConversationHistory nullAccessMessage
         isPolling outcome w).
Proof.
  unfold fetchAndConvert_resume, runBody.
  apply (frame_tryCatch _ _ (frame_afterFetch _ _ _ _) frame_catchBlock).
Qed.

(** ... and by its synchronous part. *)
Lemma frame_begin getConversationUrl (p : Props) (isPolling : bool) (w : World) :
  R w (fst (fetchAndConvert_begin getConversationUrl p isPolling w)).
Proof.
  unfold fetchAndConvert_begin.
  destruct (absent (encodedProjectName p) || absent (sessionIdArg p)); simpl; [apply R_refl|].
  destruct isPolling; simpl; [apply R_fetch|].
  eapply R_trans; [apply R_setState | apply R_fetch].
Qed.

End Frame.

Lemma sameTimers_refl w : sameTimers w w.
Proof. repeat split. Qed.

Lemma sameTimers_trans a b c : sameTimers a b -> sameTimers b c -> sameTimers a c.
Proof. unfold sameTimers. intros (?&?&?) (?&?&?). repeat split; congruence. Qed.

Lemma sameWarnings_trans a b c : sameWarnings a b -> sameWarnings b c -> sameWarnings a c.
Proof. unfold sameWarnings. congruence. Qed.

Lemma sameWarnings_log (e : LogEntry) (w : World) :
  isWarning e = false -> sameWarnings w (logConsole e w).
Proof.
  intro H. unfold sameWarnings, warnings. simpl.
  rewrite filter_app. simpl. rewrite H. apply app_nil_r.
Qed.

(* ================================================================== *)
(** ** The polling timer across the life of the hook *)
Lemma optStringEqb_eq (a b : option string) : optStringEqb a b = true -> a = b.
Proof.
  destruct a, b; simpl; try discriminate; try reflexivity.
  now intros ->%String.eqb_eq.
Qed.

Lemma same_arguments (q p : Props) :
  sameIdentifiers q p = true -> Bool.eqb (enablePolling q) (enablePolling p) = true -> q = p.
Proof.
  unfold sameIdentifiers. intros [H1 H2]%andb_prop H3.
  apply optStringEqb_eq in H1, H2. apply Bool.eqb_prop in H3.
  destruct q, p; simpl in *; congruence.
Qed.

Lemma stopPolling_quiet (w : World) (t : positive) (p : Props) :
  timers w = [mkTimer t POLLING_INTERVAL p] -> pollingRef w = Some t ->
  timers (stopPolling w) = [] /\ pollingRef (stopPolling w) = None.
Proof.
  intros Ht Hr. unfold stopPolling. rewrite Hr. simpl. rewrite Ht. simpl.
  rewrite Pos.eqb_refl. split; reflexivity.
Qed.

(** Running the armed cleanup (if any) leaves no timer and an empty ref. *)
Lemma cleanup_quiet (s : Sys) :
  timerInvariant s ->
  let w0 := if cleanupArmed s then pollingCleanup (world s) else world s in
  timers w0 = [] /\ pollingRef w0 = None.
Proof.
  unfold timerInvariant. intros H.
  destruct (mounted s) as [p|].
  - destruct (pollingOn p).
    + destruct H as (t & Ht & Hr & ->). simpl. eapply stopPolling_quiet; eauto.
    + destruct H as (Ht & Hr & ->). simpl. now split.
  - destruct H as (Ht & Hr & ->). simpl. now split.
Qed.

(** The polling effect started from a world without timers. *)
Lemma pollingEffect_from_quiet (p : Props) (w : World) :
  timers w = [] -> pollingRef w = None ->
  let (w', armed) := pollingEffect p w in
  if pollingOn p
  then timers w' = [mkTimer (nextTimerId w) POLLING_INTERVAL p] /\
       pollingRef w' = Some (nextTimerId w) /\ armed = true
  else timers w' = [] /\ pollingRef w' = None /\ armed = false.
Proof.
  intros Ht Hr. unfold pollingEffect, stopPolling, pollingOn. rewrite Hr.
  destruct (enablePolling p), (absent (encodedProjectName p)),
    (absent (sessionIdArg p)); simpl; rewrite ?Ht; repeat split; assumption.
Qed.

Section SystemFacts.

Variable getConversationUrl : string -> string -> string.
Variable convertConversationHistory : list JsValue -> Thrown + list AllMessage.
Variable nullAccessMessage : JsValue -> string -> string.

Local Abbreviation step' := (step getConversationUrl convertConversationHistory nullAccessMessage).
Local Abbreviation run' := (run getConversationUrl convertConversationHistory nullAccessMessage).
Local Abbreviation reachable' :=
  (reachable getConversationUrl convertConversationHistory nullAccessMessage).

Lemma begin_sameTimers (p : Props) (isPolling : bool) (w : World) :
  sameTimers w (fst (fetchAndConvert_begin getConversationUrl p isPolling w)).
Proof.
  apply (frame_begin sameTimers sameTimers_refl sameTimers_trans);
    intros; repeat split.
Qed.

Lemma resume_sameTimers (isPolling : bool) (outcome : FetchOutcome) (w : World) :
  sameTimers w (fetchAndConvert_resume convertConversationHistory nullAccessMessage
                  isPolling outcome w).
Proof.
  apply (frame_resume sameTimers sameTimers_refl sameTimers_trans);
    intros; repeat split.
Qed.

Lemma initialLoadEffect_sameTimers (p : Props) (w : World) :
  sameTimers w (fst (initialLoadEffect getConversationUrl p w)).
Proof.
  unfold initialLoadEffect.
  destruct (negb (absent (encodedProjectName p)) && negb (absent (sessionIdArg p))).
  - apply begin_sameTimers.
  - destruct (absent (sessionIdArg p)); repeat split.
Qed.

Lemma runAllEffects_invariant (p : Props) (s : Sys) :
  timerInvariant s ->
  timerInvariant (runAllEffects getConversationUrl p s).
Proof.
  intros Hinv. destruct (cleanup_quiet s Hinv) as [Ht Hr].
  unfold runAllEffects.
  set (w0 := if cleanupArmed s then pollingCleanup (world s) else world s) in *.
  pose proof (initialLoadEffect_sameTimers p w0) as (Ht1 & Hr1 & _).
  destruct (initialLoadEffect getConversationUrl p w0) as [w1 r]. simpl in Ht1, Hr1.
  rewrite Ht in Ht1. rewrite Hr in Hr1.
  pose proof (pollingEffect_from_quiet p w1 Ht1 Hr1) as Hp.
  destruct (pollingEffect p w1) as [w2 armed].
  unfold timerInvariant. simpl.
  destruct (pollingOn p); [eexists; exact Hp | exact Hp].
Qed.

Lemma runPollingEffect_invariant (p : Props) (s : Sys) :
  timerInvariant s ->
  timerInvariant (runPollingEffect p s).
Proof.
  intros Hinv. destruct (cleanup_quiet s Hinv) as [Ht Hr].
  unfold runPollingEffect.
  set (w0 := if cleanupArmed s then pollingCleanup (world s) else world s) in *.
  pose proof (pollingEffect_from_quiet p w0 Ht Hr) as Hp.
  destruct (pollingEffect p w0) as [w1 armed].
  unfold timerInvariant. simpl.
  destruct (pollingOn p); [eexists; exact Hp | exact Hp].
Qed.

(** A step that only changes the world, and keeps its timers, keeps the
    invariant. *)
Lemma invariant_sameTimers (s : Sys) (w' : World) (l : list Request)
    (ds : list Detached) :
  timerInvariant s -> sameTimers (world s) w' ->
  timerInvariant {| world := w'; pending := l; mounted := mounted s;
                    cleanupArmed := cleanupArmed s; detached := ds |}.
Proof.
  unfold timerInvariant. intros H (Ht & Hr & _). simpl.
  rewrite Ht, Hr. exact H.
Qed.

(** The continuation of an unmounted instance leaves the timers of the
    current one alone. *)
Lemma detached_sameTimers (isPolling : bool) (outcome : FetchOutcome) (count : nat)
    (w : World) :
  sameTimers w
    (keepInstance w
       (fetchAndConvert_resume convertConversationHistory nullAccessMessage
          isPolling outcome (setLastMessageCount count w))).
Proof.
  destruct (resume_sameTimers isPolling outcome (setLastMessageCount count w))
    as (Ht & _ & Hn).
  repeat split; simpl; assumption.
Qed.

Lemma step_invariant (e : Event) (s : Sys) :
  timerInvariant s -> timerInvariant (step' e s).
Proof.
  intros Hinv. destruct e as [p | | t | n outcome | | | i n outcome]; simpl.
  - destruct (mounted s) as [q|] eqn:Hm; [| now apply runAllEffects_invariant].
    destruct (sameIdentifiers q p); simpl; [| now apply runAllEffects_invariant].
    destruct (Bool.eqb (enablePolling q) (enablePolling p)); simpl;
      [assumption | now apply runPollingEffect_invariant].
  - destruct (mounted s) as [q|] eqn:Hm; [| assumption].
    destruct (cleanup_quiet s Hinv) as [Ht Hr]. unfold timerInvariant. simpl.
    repeat split; assumption.
  - destruct (findTimer t (timers (world s))) as [tm|]; [| assumption].
    pose proof (begin_sameTimers (timerProps tm) true (world s)) as Hsame.
    destruct (fetchAndConvert_begin getConversationUrl (timerProps tm) true (world s))
      as [w1 r].
    now apply invariant_sameTimers.
  - destruct (nth_error (pending s) n) as [rq|]; [| assumption].
    apply invariant_sameTimers; [assumption | apply resume_sameTimers].
  - apply invariant_sameTimers; [assumption | repeat split].
  - destruct (mounted s) as [p|] eqn:Hm; [| assumption].
    pose proof (begin_sameTimers p false (world s)) as Hsame.
    destruct (fetchAndConvert_begin getConversationUrl p false (world s)) as [w1 r].
    pose proof (invariant_sameTimers s w1 (enqueue false r (pending s)) (detached s)
                  Hinv Hsame) as H.
    now rewrite Hm in H.
  - destruct (nth_error (detached s) i) as [d|]; [| assumption].
    destruct (nth_error (detachedPending d) n) as [rq|]; [| assumption].
    apply invariant_sameTimers; [assumption | apply detached_sameTimers].
Qed.

Lemma reachable_invariant (s : Sys) : reachable' s -> timerInvariant s.
Proof.
  induction 1 as [| e s _ IH].
  - unfold timerInvariant. simpl. repeat split.
  - now apply step_invariant.
Qed.

Lemma reachable_run (es : list Event) (s : Sys) : reachable' s -> reachable' (run' es s).
Proof.
  revert s. induction es as [|e es IH]; intros s Hs; simpl.
  - assumption.
  - apply IH. now constructor.
Qed.

(** After a render the mounted arguments are the rendered ones. *)
Lemma mounted_after_render (p : Props) (s : Sys) :
  mounted (step' (Render p) s) = Some p.
Proof.
  simpl. unfold runAllEffects, runPollingEffect.
  destruct (mounted s) as [q|] eqn:Hm.
  - destruct (sameIdentifiers q p) eqn:Hid; simpl.
    + destruct (Bool.eqb (enablePolling q) (enablePolling p)) eqn:Hen; simpl.
      * rewrite Hm. f_equal. now apply same_arguments.
      * now destruct (pollingEffect p _).
    + destruct (initialLoadEffect _ _ _), (pollingEffect p _). reflexivity.
  - destruct (initialLoadEffect _ _ _), (pollingEffect p _). reflexivity.
Qed.

(** While no instance is mounted the world is that of a new instance. *)
Lemma reachable_fresh (s : Sys) : reachable' s -> freshInvariant s.
Proof.
  induction 1 as [| e s Hs IH].
  - intros _. repeat split.
  - pose proof (reachable_invariant s Hs) as Hinv. unfold freshInvariant in *.
    destruct e as [p | | t | n outcome | | | i n outcome].
    + rewrite mounted_after_render. discriminate.
    + simpl. destruct (mounted s) eqn:Hm;
        [intros _; repeat split | intros _; exact (IH eq_refl)].
    + simpl. destruct (findTimer t (timers (world s))) as [tm|] eqn:Hf; [| exact IH].
      destruct (fetchAndConvert_begin _ _ _ _) as [w1 r]. simpl. intro Hm.
      unfold timerInvariant in Hinv. rewrite Hm in Hinv. destruct Hinv as (Ht & _).
      rewrite Ht in Hf. discriminate.
    + simpl. destruct (nth_error (pending s) n) as [rq|] eqn:Hn; [| exact IH].
      simpl. intro Hm. destruct (IH Hm) as (_ & _ & Hp). rewrite Hp in Hn.
      now destruct n.
    + simpl. intro Hm. destruct (IH Hm) as (_ & _ & Hp). repeat split. exact Hp.
    + simpl. destruct (mounted s) as [p|] eqn:Hm; [| intros _; exact (IH eq_refl)].
      destruct (fetchAndConvert_begin _ _ _ _) as [w1 r]. simpl. discriminate.
    + simpl. destruct (nth_error (detached s) i) as [d|]; [| exact IH].
      destruct (nth_error (detachedPending d) n) as [rq|]; [| exact IH].
      simpl. exact IH.
Qed.

End SystemFacts.

(* ================================================================== *)
(** ** Strings and the protocol list *)

Lemma startsWith_char (c : ascii) (h : string) :
  startsWith (String c "") h = true <-> exists rest, h = String c rest.
Proof.
  unfold startsWith. destruct h as [|c' rest]; simpl.
  - split; [discriminate | intros (rest & H); discriminate].
  - destruct (ascii_dec c c') as [-> | Hne].
    + split; [intros _; now exists rest | intros _; now destruct rest].
    + split; [discriminate | intros (rest' & H); congruence].
Qed.

Lemma includes_allowed (s : string) :
  includes allowedProtocols s = true <-> s = "http:" \/ s = "https:" \/ s = "mailto:".
Proof.
  unfold includes, allowedProtocols. cbn -[String.eqb].
  rewrite orb_false_r, !orb_true_iff, !String.eqb_eq.
  intuition congruence.
Qed.

(* ================================================================== *)
(** ** Properties of useHistoryLoader *)
Section HistoryLoaderProperties.

Variable getConversationUrl : string -> string -> string.
Variable convertConversationHistory : list JsValue -> Thrown + list AllMessage.
Variable nullAccessMessage : JsValue -> string -> string.

(** C6 (as amended).  [loadHistory] of [useHistoryLoader], at the moment
    its fetch has resolved, in whatever world [w] the hook then is: when
    the response is not ok, the continuation ends with [loading = false]
    and [error] set to "Failed to load conversation: <status>
    <statusText>"; when the body holds no messages array, with [error]
    set to "Invalid conversation history format" (to the engine's text
    when the body is [null]); either way [messages] and [sessionId] are
    left as they were.  On an ok response with a messages array and a
    conversion that returns, the converted messages and the body's session
    id are stored, nothing is logged as an error and [error] is left as
    it was: so a call that runs alone, which sets [error] to [null] when
    it starts, ends with [error = null]. *)
Theorem loadHistory_failure_surfaces_error (r : Response) (w : World) :
  let w' := loadHistory_resume convertConversationHistory nullAccessMessage
              (FetchResolved r) w in
  (ok r = false ->
   hstate w' =
   {| messages := messages (hstate w); loading := false;
      error := Some ("Failed to load conversation: " ++ natToString (status r)
                     ++ " " ++ statusText r);
      sessionId := sessionId (hstate w) |})
  /\
  (forall hist,
     ok r = true -> json r = inr hist ->
     isArray (propertyOf "messages" hist) = false ->
     hstate w' =
     {| messages := messages (hstate w); loading := false;
        error := Some match hist with
                      | JNull | JUndefined => nullAccessMessage hist "messages"
                      | _ => "Invalid conversation history format"
                      end;
        sessionId := sessionId (hstate w) |})
  /\
  (forall hist items converted,
     ok r = true -> json r = inr hist ->
     propertyOf "messages" hist = JArray items ->
     convertConversationHistory (filter isTimestampedSDKMessage items) = inr converted ->
     hstate w' =
     {| messages := converted; loading := false; error := error (hstate w);
        sessionId := propertyOf "sessionId" hist |} /\
     filter isErrorLog (console w') = filter isErrorLog (console w))
  /\
  (forall pn sid,
     pn <> "" -> sid <> "" ->
     let started := fst (loadHistory_begin getConversationUrl pn sid w) in
     let alone := runBody (loadHistory getConversationUrl convertConversationHistory
                             nullAccessMessage pn sid (FetchResolved r)) w in
     hstate started =
     {| messages := messages (hstate w); loading := true; error := None;
        sessionId := sessionId (hstate w) |} /\
     alone = loadHistory_resume convertConversationHistory nullAccessMessage
               (FetchResolved r) started /\
     (forall hist items converted,
        ok r = true -> json r = inr hist ->
        propertyOf "messages" hist = JArray items ->
        convertConversationHistory (filter isTimestampedSDKMessage items)
          = inr converted ->
        error (hstate alone) = None)).
Proof.
  intro w'. subst w'. split; [|split; [|split]].
  - intro Hok. rewrite (resumeLoad_not_ok _ _ r w Hok). reflexivity.
  - intros hist Hok Hj Harr. rewrite (resumeLoad_no_array _ _ r hist w Hok Hj Harr).
    reflexivity.
  - intros hist items converted Hok Hj Hm Hc.
    rewrite (resumeLoad_array _ _ r hist items w Hok Hj Hm), Hc. cbv zeta.
    match goal with
    | |- context [fold_left ?f ?es w] =>
        destruct (fold_logConsole_fields es w) as (Hst & _ & _ & Hcon & _)
    end.
    simpl in Hst, Hcon. simpl. rewrite Hst, Hcon. split; [reflexivity|].
    rewrite filter_app.
    rewrite warnings_are_no_errors. apply app_nil_r.
  - intros pn sid Hp Hs started alone.
    assert (loadHistory_begin getConversationUrl pn sid w =
            (recordFetch (getConversationUrl pn sid) (setState loadingState w),
             Some (getConversationUrl pn sid))) as Hb.
    { unfold loadHistory_begin.
      now rewrite (emptyString_false _ Hp), (emptyString_false _ Hs). }
    assert (alone = loadHistory_resume convertConversationHistory nullAccessMessage
                      (FetchResolved r) started) as Halone.
    { subst alone started. rewrite loadHistory_split, Hb. reflexivity. }
    split; [subst started; now rewrite Hb|]. split; [exact Halone|].
    intros hist items converted Hok Hj Hm Hc. rewrite Halone.
    rewrite (resumeLoad_array _ _ r hist items started Hok Hj Hm), Hc. cbv zeta.
    match goal with
    | |- context [fold_left ?f ?es started] =>
        destruct (fold_logConsole_fields es started) as (Hst & _)
    end.
    simpl in Hst. simpl. rewrite Hst. subst started. now rewrite Hb.
Qed.

(** C9.  [loadHistory] of [useHistoryLoader] called with an empty encoded
    project name or an empty session id performs no fetch, sets [error] to
    "Encoded project name and session ID are required", and leaves
    [messages], [sessionId] and [loading] as they were. *)
Theorem loadHistory_requires_identifiers
    (pn sid : string) (outcome : FetchOutcome) (w : World) :
  pn = "" \/ sid = "" ->
  let w' := runBody (loadHistory getConversationUrl convertConversationHistory
                       nullAccessMessage pn sid outcome) w in
  fetched w' = fetched w /\
  error (hstate w') = Some "Encoded project name and session ID are required" /\
  messages (hstate w') = messages (hstate w) /\
  sessionId (hstate w') = sessionId (hstate w) /\
  loading (hstate w') = loading (hstate w).
Proof.
  intros Hempty w'. subst w'. unfold loadHistory.
  assert (emptyString pn || emptyString sid = true) as ->.
  { destruct Hempty as [-> | ->]; simpl; [reflexivity | apply orb_true_r]. }
  cbn. repeat split; reflexivity.
Qed.

End HistoryLoaderProperties.

(** C10.  [clearHistory] resets the hook state to the initial state
    whatever the prior state, in [useAutoHistoryLoader] it also resets the
    recorded last message count to 0, and calling it twice gives the state
    that calling it once gives. *)
Theorem clearHistory_resets_and_is_idempotent (w : World) :
  hstate (clearHistory w) = initialState /\
  hstate (clearHistoryAuto w) = initialState /\
  lastMessageCountRef (clearHistoryAuto w) = 0 /\
  initialState = {| messages := []; loading := false; error := None; sessionId := JNull |} /\
  clearHistory (clearHistory w) = clearHistory w /\
  clearHistoryAuto (clearHistoryAuto w) = clearHistoryAuto w.
Proof. repeat split; reflexivity. Qed.

(* ================================================================== *)
(** ** Properties of one call of fetchAndConvert *)
Section AutoLoaderProperties.

Variable getConversationUrl : string -> string -> string.
Variable convertConversationHistory : list JsValue -> Thrown + list AllMessage.
Variable nullAccessMessage : JsValue -> string -> string.

Local Abbreviation fetchAndConvert' :=
  (fetchAndConvert getConversationUrl convertConversationHistory nullAccessMessage).

(** C1.  A polling call [fetchAndConvert(true)]: when the fetched
    conversation holds no more messages than the last recorded count, the
    hook state (and the recorded count) is left as it was; the state's
    messages change only when the fetched count strictly exceeds the
    recorded one, and then they are the converted fetched messages; and
    when the count has grown and the conversion returns, the converted
    messages are stored and the count is recorded. *)
Theorem polling_updates_only_on_growth (p : Props) (outcome : FetchOutcome) (w : World) :
  let w' := runBody (fetchAndConvert getConversationUrl convertConversationHistory
                       nullAccessMessage p true outcome) w in
  (forall r hist items,
     outcome = FetchResolved r -> json r = inr hist ->
     propertyOf "messages" hist = JArray items ->
     length items <= lastMessageCountRef w ->
     hstate w' = hstate w /\ lastMessageCountRef w' = lastMessageCountRef w)
  /\
  (messages (hstate w') <> messages (hstate w) ->
   exists r hist items converted,
     outcome = FetchResolved r /\ ok r = true /\ json r = inr hist /\
     propertyOf "messages" hist = JArray items /\
     lastMessageCountRef w < length items /\
     convertConversationHistory (filter isTimestampedSDKMessage items) = inr converted /\
     messages (hstate w') = converted)
  /\
  (forall r hist items converted,
     absent (encodedProjectName p) || absent (sessionIdArg p) = false ->
     outcome = FetchResolved r -> ok r = true -> json r = inr hist ->
     propertyOf "messages" hist = JArray items ->
     lastMessageCountRef w < length items ->
     convertConversationHistory (filter isTimestampedSDKMessage items) = inr converted ->
     hstate w' = loadedState converted (propertyOf "sessionId" hist) (hstate w) /\
     lastMessageCountRef w' = length items).
Proof.
  intro w'. subst w'. rewrite fetchAndConvert_split. unfold fetchAndConvert_begin.
  destruct (absent (encodedProjectName p) || absent (sessionIdArg p)) eqn:Hab.
  { split; [intros; split; reflexivity |].
    split; [intro H; now elim H | intros; discriminate]. }
  simpl negb. cbv iota.
  set (w1 := recordFetch _ w).
  assert (hstate w1 = hstate w) as Hst by reflexivity.
  assert (lastMessageCountRef w1 = lastMessageCountRef w) as Hlast by reflexivity.
  split; [|split].
  - intros r hist items -> Hj Hm Hle. rewrite <- Hlast in Hle.
    destruct (ok r) eqn:Hok.
    + rewrite (resume_polling_no_growth _ _ r hist items w1 Hok Hj Hm Hle).
      split; reflexivity.
    + rewrite (resume_polling_not_ok _ _ r w1 Hok). split; reflexivity.
  - intro Hchanged.
    destruct (resume_polling_cases convertConversationHistory nullAccessMessage outcome w1)
      as [Heq | [(e & Heq) | (r & hist & items & Ho & Hok & Hj & Hm & Hgt & Heq)]];
      rewrite Heq in Hchanged.
    + now elim Hchanged.
    + now elim Hchanged.
    + rewrite Heq. cbv zeta in *.
      destruct (convertConversationHistory (filter isTimestampedSDKMessage items))
        as [e | converted] eqn:Hc.
      * now elim Hchanged.
      * exists r, hist, items, converted. rewrite Hlast in Hgt.
        repeat (split; [assumption|]). reflexivity.
  - intros r hist items converted _ -> Hok Hj Hm Hgt Hc. rewrite <- Hlast in Hgt.
    rewrite (resume_polling_growth _ _ r hist items w1 Hok Hj Hm Hgt).
    cbv zeta. rewrite Hc. split; reflexivity.
Qed.

(** C2.  What [fetchAndConvert(true)] does when its fetch fails, from any
    prior world: a rejected fetch, a rejected [response.json()] and a
    [null] body each reach the [catch] block, which sets [error] and clears
    [loading]; a response that is not ok and an object body without
    messages are swallowed and leave the hook state as it was. *)
Theorem polling_failure_reaches_catch (e : Thrown) (st : nat) (txt : string)
    (body : Thrown + JsValue) (w : World) :
  let poll outcome := hstate (runBody (fetchAndConvert getConversationUrl
                                convertConversationHistory nullAccessMessage
                                sampleProps true outcome) w) in
  poll (FetchRejected e) = failedState e (hstate w) /\
  poll (FetchResolved (mkResponse true st txt (inl e))) = failedState e (hstate w) /\
  poll (FetchResolved (mkResponse true st txt (inr JNull))) =
    failedState (ErrorObject (nullAccessMessage JNull "messages")) (hstate w) /\
  error (failedState e (hstate w)) = Some (caughtMessage e) /\
  poll (FetchResolved (mkResponse false st txt body)) = hstate w /\
  poll (FetchResolved (mkResponse true st txt (inr (JObject [])))) = hstate w.
Proof.
  cbv zeta. repeat split; try reflexivity.
Qed.

(** C4.  [fetchAndConvert], polling or not, adds no warning to the
    console whatever the fetch delivers: an entry that fails the guard is
    dropped silently ([strayEntry] below), where [loadHistory] of
    [useHistoryLoader] logs "Skipping invalid message in history:" for the
    same body. *)
Theorem fetchAndConvert_logs_no_warning (p : Props) (isPolling : bool)
    (outcome : FetchOutcome) (w : World) :
  warnings (console (runBody (fetchAndConvert getConversationUrl
                                convertConversationHistory nullAccessMessage
                                p isPolling outcome) w))
  = warnings (console w)
  /\
  keepTimestamped [userMessage "a"; strayEntry] [] = [userMessage "a"]
  /\
  warnings (console (runBody (loadHistory getConversationUrl convertConversationHistory
                                nullAccessMessage "proj" "s1"
                                (FetchResolved (okResponse
                                   (sampleHistory [userMessage "a"; strayEntry]))))
                       initialWorld))
  = [ConsoleWarn "Skipping invalid message in history:" strayEntry].
Proof.
  split; [|split].
  - apply (frame_fetchAndConvert sameWarnings); try (intros; reflexivity).
    + exact sameWarnings_trans.
    + intros; now apply sameWarnings_log.
    + intros; now apply sameWarnings_log.
  - reflexivity.
  - unfold loadHistory, runBody, tryCatch, awaitFetch, bind, effect, throw, ret, catchBlock.
    simpl. destruct (convertConversationHistory _); reflexivity.
Qed.

End AutoLoaderProperties.

(* ================================================================== *)
(** ** Properties of the polling timer *)

Section SystemProperties.

Variable getConversationUrl : string -> string -> string.
Variable convertConversationHistory : list JsValue -> Thrown + list AllMessage.
Variable nullAccessMessage : JsValue -> string -> string.

Local Abbreviation step' := (step getConversationUrl convertConversationHistory nullAccessMessage).
Local Abbreviation reachable' :=
  (reachable getConversationUrl convertConversationHistory nullAccessMessage).

(** Events other than a render and an unmount leave the timers alone. *)
Lemma step_sameTimers (e : Event) (s : Sys) :
  (forall q, e <> Render q) -> e <> Unmount ->
  sameTimers (world s) (world (step' e s)).
Proof.
  intros Hr Hu. destruct e as [p | | t | n outcome | | | i n outcome]; simpl.
  7: { destruct (nth_error (detached s) i) as [d|]; [| apply sameTimers_refl].
       destruct (nth_error (detachedPending d) n) as [rq|]; [| apply sameTimers_refl].
       apply detached_sameTimers. }
  - now elim (Hr p).
  - now elim Hu.
  - destruct (findTimer t (timers (world s))) as [tm|]; [| apply sameTimers_refl].
    pose proof (begin_sameTimers getConversationUrl (timerProps tm) true (world s)) as H.
    now destruct (fetchAndConvert_begin _ _ _ _).
  - destruct (nth_error (pending s) n); [apply resume_sameTimers | apply sameTimers_refl].
  - repeat split.
  - destruct (mounted s) as [p|]; [| apply sameTimers_refl].
    pose proof (begin_sameTimers getConversationUrl p false (world s)) as H.
    now destruct (fetchAndConvert_begin _ _ _ _).
Qed.

(** C8.  From any reachable state, after a render with arguments [p]:
    the polling period is 3000 ms; if polling is enabled and both
    identifiers are present, exactly one interval timer is live, with that
    period, and the ref holds its handle; if polling is disabled or an
    identifier is absent, no timer is live; after an unmount no timer is
    live; and no other event installs or clears a timer. *)
Theorem polling_timer_follows_arguments (s : Sys) (p : Props) :
  reachable getConversationUrl convertConversationHistory nullAccessMessage s ->
  let s' := step getConversationUrl convertConversationHistory nullAccessMessage
              (Render p) s in
  POLLING_INTERVAL = 3000%Z /\
  (enablePolling p = true -> absent (encodedProjectName p) = false ->
   absent (sessionIdArg p) = false ->
   exists t, timers (world s') = [mkTimer t POLLING_INTERVAL p] /\
             pollingRef (world s') = Some t) /\
  (enablePolling p = false \/ absent (encodedProjectName p) = true \/
   absent (sessionIdArg p) = true ->
   timers (world s') = []) /\
  timers (world (step getConversationUrl convertConversationHistory nullAccessMessage
                   Unmount s')) = [] /\
  (forall e, (forall q, e <> Render q) -> e <> Unmount ->
     timers (world (step getConversationUrl convertConversationHistory nullAccessMessage
                      e s')) = timers (world s')).
Proof.
  intros Hreach s'.
  assert (reachable' s') as Hreach' by now constructor.
  pose proof (reachable_invariant _ _ _ _ Hreach') as Hinv.
  pose proof (mounted_after_render getConversationUrl convertConversationHistory
                nullAccessMessage p s) as Hm.
  fold s' in Hm.
  split; [reflexivity|]. split; [|split; [|split]].
  - intros He Hp Hs. unfold timerInvariant in Hinv. rewrite Hm in Hinv.
    unfold pollingOn in Hinv. rewrite He, Hp, Hs in Hinv. simpl in Hinv.
    destruct Hinv as (t & Ht & Hr & _). now exists t.
  - intros Hoff. unfold timerInvariant in Hinv. rewrite Hm in Hinv.
    assert (pollingOn p = false) as Hon.
    { unfold pollingOn. destruct Hoff as [-> | [-> | ->]]; simpl;
        rewrite ?andb_false_r; reflexivity. }
    rewrite Hon in Hinv. apply Hinv.
  - pose proof (step_invariant getConversationUrl convertConversationHistory
                  nullAccessMessage Unmount s' Hinv) as Hu.
    unfold timerInvariant in Hu. simpl in Hu. rewrite Hm in Hu. simpl in Hu.
    simpl. rewrite Hm. simpl. apply Hu.
  - intros e Hr Hu. now destruct (step_sameTimers e s' Hr Hu) as (Ht & _).
Qed.

(** C3 (as amended).  In every reachable state at most one interval timer
    is live; a tick of a live timer starts one more polling fetch whatever
    is already in flight. *)
Theorem one_timer_any_number_of_fetches (s : Sys) :
  reachable getConversationUrl convertConversationHistory nullAccessMessage s ->
  length (timers (world s)) <= 1 /\
  (forall t tm, findTimer t (timers (world s)) = Some tm ->
     pollingInFlight (step getConversationUrl convertConversationHistory
                        nullAccessMessage (Tick t) s)
     = S (pollingInFlight s)).
Proof.
  intros Hreach. pose proof (reachable_invariant _ _ _ _ Hreach) as Hinv.
  unfold timerInvariant in Hinv.
  destruct (mounted s) as [p|].
  - destruct (pollingOn p) eqn:Hon.
    + destruct Hinv as (t0 & Ht & _). rewrite Ht. split; [simpl; lia|].
      intros t tm Hfind. simpl. rewrite Ht.
      unfold findTimer in *. simpl in *.
      destruct (Pos.eqb t0 t); [| discriminate].
      injection Hfind as <-. simpl.
      unfold pollingOn in Hon.
      apply andb_prop in Hon as [Hon Hs]. apply andb_prop in Hon as [_ Hp].
      apply negb_true_iff in Hs, Hp.
      unfold fetchAndConvert_begin. rewrite Hp, Hs. simpl.
      unfold pollingInFlight. simpl. rewrite filter_app, length_app. simpl. lia.
    + destruct Hinv as (Ht & _). rewrite Ht. split; [simpl; lia|].
      intros t tm Hfind. discriminate.
  - destruct Hinv as (Ht & _). rewrite Ht. split; [simpl; lia|].
    intros t tm Hfind. discriminate.
Qed.

End SystemProperties.

(* ================================================================== *)
(** ** Properties of renderMessage and isValidUrl *)

Section ViewProperties.

Variables isSystemMessage isToolMessage isToolResultMessage isPlanMessage
          isThinkingMessage isTodoMessage isChatMessage : AllMessage -> bool.
Variable toText : JsValue -> string.
Variable newURL : string -> string -> option URL.
Variable origin : string.

(** C7.  [renderMessage], a function of the message and its index,
    returns the component of the first guard the message satisfies, the
    guards taken in the order system, tool, tool-result, plan, thinking,
    todo, chat, and returns [null] exactly when the message satisfies
    none of them. *)
Theorem renderMessage_first_satisfied_guard (message : AllMessage) (index : nat) :
  renderMessage isSystemMessage isToolMessage isToolResultMessage isPlanMessage
    isThinkingMessage isTodoMessage isChatMessage toText message index
  = firstSatisfied
      (dispatchOrder isSystemMessage isToolMessage isToolResultMessage isPlanMessage
         isThinkingMessage isTodoMessage isChatMessage)
      (messageKey toText message index) message
  /\
  (renderMessage isSystemMessage isToolMessage isToolResultMessage isPlanMessage
     isThinkingMessage isTodoMessage isChatMessage toText message index = None
   <->
   isSystemMessage message = false /\ isToolMessage message = false /\
   isToolResultMessage message = false /\ isPlanMessage message = false /\
   isThinkingMessage message = false /\ isTodoMessage message = false /\
   isChatMessage message = false).
Proof.
  unfold renderMessage, dispatchOrder. simpl.
  destruct (isSystemMessage message), (isToolMessage message),
    (isToolResultMessage message), (isPlanMessage message),
    (isThinkingMessage message), (isTodoMessage message), (isChatMessage message);
    (split; [reflexivity | split; [try discriminate; intros _; repeat split
                                  | intros (?&?&?&?&?&?&?); try discriminate; reflexivity]]).
Qed.

(** C5.  [isValidUrl] is false for an undefined or empty href; for a
    non-empty href that parses it is true exactly when the parsed protocol
    is "http:", "https:" or "mailto:" (so a "javascript:" or "data:" URL
    is rejected); for a non-empty href that fails to parse it is true
    exactly when the href starts with "/" or "#"; and the link renderer
    gives a plain [span] for a rejected href and an anchor otherwise. *)
Theorem isValidUrl_allows_three_protocols :
  isValidUrl newURL origin None = false /\
  isValidUrl newURL origin (Some "") = false /\
  (forall h url, h <> "" -> newURL h origin = Some url ->
     (isValidUrl newURL origin (Some h) = true <->
      protocol url = "http:" \/ protocol url = "https:" \/ protocol url = "mailto:")) /\
  (forall h url, newURL h origin = Some url ->
     protocol url = "javascript:" \/ protocol url = "data:" ->
     isValidUrl newURL origin (Some h) = false) /\
  (forall h, h <> "" -> newURL h origin = None ->
     (isValidUrl newURL origin (Some h) = true <->
      exists rest, h = "/" ++ rest \/ h = "#" ++ rest)) /\
  (forall (Children : Type) (href : option string) (children : Children),
     renderLink newURL origin href children =
     if isValidUrl newURL origin href
     then Anchor href "_blank" "noopener noreferrer" "mava-link hover:underline" children
     else Span "mava-text" children).
Proof.
  split; [reflexivity|]. split; [reflexivity|]. split; [|split; [|split]].
  - intros h url Hne Hparse. unfold isValidUrl.
    rewrite (emptyString_false _ Hne), Hparse. apply includes_allowed.
  - intros h url Hparse Hproto. unfold isValidUrl.
    destruct (emptyString h); [reflexivity|]. rewrite Hparse.
    destruct Hproto as [-> | ->]; reflexivity.
  - intros h Hne Hparse. unfold isValidUrl.
    rewrite (emptyString_false _ Hne), Hparse.
    rewrite orb_true_iff, !startsWith_char. split.
    + intros [(rest & ->) | (rest & ->)]; exists rest; [now left | now right].
    + intros (rest & [-> | ->]); [left | right]; now exists rest.
  - intros Children href children. unfold renderLink.
    now destruct (isValidUrl newURL origin href).
Qed.

End ViewProperties.

(* ================================================================== *)
(** ** Instances on the sample environment *)

Lemma loadHistory_failure_witness :
  error (hstate (loadHistory_resume sampleConvert sampleNullMessage
                   (FetchResolved notFoundResponse) loadedWorld))
  = Some "Failed to load conversation: 404 Not Found" /\
  error (hstate (loadHistory_resume sampleConvert sampleNullMessage
                   (FetchResolved serverErrorResponse) loadedWorld))
  = Some "Failed to load conversation: 500 Internal Server Error" /\
  error (hstate (loadHistory_resume sampleConvert sampleNullMessage
                   (FetchResolved (okResponse (JObject [("sessionId", JString "s1")])))
                   loadedWorld))
  = Some "Invalid conversation history format" /\
  error (hstate (runBody (loadHistory sampleUrl sampleConvert sampleNullMessage "proj" "s1"
                            (FetchResolved (okResponse (sampleHistory [userMessage "a"]))))
                   loadedWorld))
  = None.
Proof.
  assert ("proj" <> "") as Hp by discriminate.
  assert ("s1" <> "") as Hs by discriminate.
  split; [| split; [| split]].
  - rewrite (proj1 (loadHistory_failure_surfaces_error sampleUrl sampleConvert
                      sampleNullMessage notFoundResponse loadedWorld) eq_refl).
    reflexivity.
  - rewrite (proj1 (loadHistory_failure_surfaces_error sampleUrl sampleConvert
                      sampleNullMessage serverErrorResponse loadedWorld) eq_refl).
    reflexivity.
  - rewrite (proj1 (proj2 (loadHistory_failure_surfaces_error sampleUrl sampleConvert
                             sampleNullMessage
                             (okResponse (JObject [("sessionId", JString "s1")]))
                             loadedWorld))
               (JObject [("sessionId", JString "s1")]) eq_refl eq_refl eq_refl).
    reflexivity.
  - destruct (proj2 (proj2 (proj2 (loadHistory_failure_surfaces_error sampleUrl
                                     sampleConvert sampleNullMessage
                                     (okResponse (sampleHistory [userMessage "a"]))
                                     loadedWorld)))
                "proj" "s1" Hp Hs) as (_ & _ & Hnull).
    exact (Hnull (sampleHistory [userMessage "a"]) [userMessage "a"] [userMessage "a"]
             eq_refl eq_refl eq_refl eq_refl).
Defined.

Lemma loadHistory_requires_identifiers_witness :
  error (hstate (runBody (loadHistory sampleUrl sampleConvert sampleNullMessage
                            "proj" "" (FetchRejected (ErrorObject "unused"))) loadedWorld))
  = Some "Encoded project name and session ID are required".
Proof.
  apply (loadHistory_requires_identifiers sampleUrl sampleConvert sampleNullMessage
           "proj" "" (FetchRejected (ErrorObject "unused")) loadedWorld).
  right. reflexivity.
Defined.

Lemma polling_growth_witness :
  hstate (runBody (fetchAndConvert sampleUrl sampleConvert sampleNullMessage sampleProps true
                     (FetchResolved (okResponse
                        (sampleHistory [userMessage "a"; userMessage "b"]))))
            loadedWorld)
  = hstate loadedWorld
  /\
  messages (hstate (runBody (fetchAndConvert sampleUrl sampleConvert sampleNullMessage
                               sampleProps true
                               (FetchResolved (okResponse
                                  (sampleHistory [userMessage "a"; userMessage "b";
                                                  strayEntry; userMessage "c"]))))
                      loadedWorld))
  = [userMessage "a"; userMessage "b"; userMessage "c"].
Proof.
  split.
  - destruct (polling_updates_only_on_growth sampleUrl sampleConvert sampleNullMessage
                sampleProps
                (FetchResolved (okResponse (sampleHistory [userMessage "a"; userMessage "b"])))
                loadedWorld) as (Hsame & _ & _).
    apply (Hsame _ _ [userMessage "a"; userMessage "b"] eq_refl eq_refl eq_refl).
    simpl. lia.
  - destruct (polling_updates_only_on_growth sampleUrl sampleConvert sampleNullMessage
                sampleProps
                (FetchResolved (okResponse
                   (sampleHistory [userMessage "a"; userMessage "b"; strayEntry;
                                   userMessage "c"])))
                loadedWorld) as (_ & _ & Hgrow).
    destruct (Hgrow _ _ [userMessage "a"; userMessage "b"; strayEntry; userMessage "c"]
                [userMessage "a"; userMessage "b"; userMessage "c"]
                eq_refl eq_refl eq_refl eq_refl eq_refl) as [Hst _].
    + simpl. lia.
    + reflexivity.
    + rewrite Hst. reflexivity.
Defined.

Lemma one_timer_witness :
  pollingInFlight (step sampleUrl sampleConvert sampleNullMessage (Tick 1%positive)
                     (step sampleUrl sampleConvert sampleNullMessage (Render sampleProps)
                        initialSys))
  = 1.
Proof.
  assert (reachable sampleUrl sampleConvert sampleNullMessage
            (step sampleUrl sampleConvert sampleNullMessage (Render sampleProps) initialSys))
    as Hreach by (constructor; constructor).
  destruct (one_timer_any_number_of_fetches sampleUrl sampleConvert sampleNullMessage
              _ Hreach) as [_ Htick].
  exact (Htick 1%positive (mkTimer 1%positive POLLING_INTERVAL sampleProps) eq_refl).
Defined.

Lemma polling_timer_witness :
  exists t,
    timers (world (step sampleUrl sampleConvert sampleNullMessage (Render sampleProps)
                     initialSys))
    = [mkTimer t 3000%Z sampleProps].
Proof.
  destruct (polling_timer_follows_arguments sampleUrl sampleConvert sampleNullMessage
              initialSys sampleProps
              (reach_init sampleUrl sampleConvert sampleNullMessage))
    as (_ & Hon & _).
  destruct (Hon eq_refl eq_refl eq_refl) as (t & Ht & _).
  exists t. exact Ht.
Defined.

Lemma renderMessage_witness :
  renderMessage (hasType "system") (hasType "tool") (hasType "tool_result")
    (hasType "plan") (hasType "thinking") (hasType "todo") (hasType "chat")
    sampleToText
    (JObject [("type", JString "plan"); ("timestamp", JString "7")]) 3
  = Some (PlanMessageComponent "7-3"
            (JObject [("type", JString "plan"); ("timestamp", JString "7")])).
Proof.
  destruct (renderMessage_first_satisfied_guard
              (hasType "system") (hasType "tool") (hasType "tool_result")
              (hasType "plan") (hasType "thinking") (hasType "todo") (hasType "chat")
              sampleToText
              (JObject [("type", JString "plan"); ("timestamp", JString "7")]) 3)
    as [Heq _].
  rewrite Heq. reflexivity.
Defined.

Lemma isValidUrl_witness :
  isValidUrl sampleNewURL "https://example.org" (Some "javascript:alert(1)") = false /\
  isValidUrl sampleNewURL "https://example.org" (Some "https://rocq-prover.org") = true /\
  isValidUrl sampleNewURL "" (Some "#top") = true.
Proof.
  destruct (isValidUrl_allows_three_protocols sampleNewURL "https://example.org")
    as (_ & _ & Hparsed & Hbad & _).
  destruct (isValidUrl_allows_three_protocols sampleNewURL "")
    as (_ & _ & _ & _ & Hrel & _).
  split; [| split].
  - apply (Hbad "javascript:alert(1)" (mkURL "javascript:")); [reflexivity | now left].
  - apply (Hparsed "https://rocq-prover.org" (mkURL "https:"));
      [discriminate | reflexivity | right; now left].
  - apply (Hrel "#top"); [discriminate | reflexivity |].
    exists "top". now right.
Defined.

(** C6 (as stated) fails: two calls of [loadHistory] overlap, the first
    is answered 404 and then the second loads one message; the load has
    succeeded and [error] is not [null]. *)
Lemma overlapping_loads_keep_error :
  hstate (loaderWorld (loaderRun sampleUrl sampleConvert sampleNullMessage
                         overlappingLoads initialLoader))
  = {| messages := [userMessage "a"]; loading := false;
       error := Some "Failed to load conversation: 404 Not Found";
       sessionId := JString "s2" |} /\
  error (hstate (loaderWorld (loaderRun sampleUrl sampleConvert sampleNullMessage
                                overlappingLoads initialLoader)))
  <> None.
Proof. split; [reflexivity | discriminate]. Qed.

(** C3 (as stated) fails: the hook is mounted, its initial load settles,
    and the timer fires twice before either poll's fetch has settled. *)
Lemma two_polls_in_flight :
  reachable sampleUrl sampleConvert sampleNullMessage
    (run sampleUrl sampleConvert sampleNullMessage overlappingPolls initialSys) /\
  ~ pollingInFlight (run sampleUrl sampleConvert sampleNullMessage
                       overlappingPolls initialSys) <= 1.
Proof.
  split.
  - apply reachable_run. constructor.
  - vm_compute. lia.
Qed.

(* ================================================================== *)
(** ** Further properties of the hooks *)

(** X1.  The type guard accepts exactly the objects that have a "type"
    property and a "timestamp" property holding a string. *)
Theorem isTimestampedSDKMessage_accepts_iff (message : JsValue) :
  isTimestampedSDKMessage message = true <->
  exists props t ts,
    message = JObject props /\ lookup "type" props = Some t /\
    lookup "timestamp" props = Some (JString ts).
Proof.
  unfold isTimestampedSDKMessage. split.
  - destruct message; simpl; try discriminate.
    destruct (lookup "type" props) as [t|] eqn:Ht; simpl; [| discriminate].
    destruct (lookup "timestamp" props) as [[]|] eqn:Hts; simpl; try discriminate.
    intros _. now exists props, t, s.
  - intros (props & t & ts & -> & Ht & Hts). simpl. rewrite Ht, Hts. reflexivity.
Qed.

Section HookExtras.

Variable getConversationUrl : string -> string -> string.
Variable convertConversationHistory : list JsValue -> Thrown + list AllMessage.
Variable nullAccessMessage : JsValue -> string -> string.

Local Abbreviation loadHistory' :=
  (loadHistory getConversationUrl convertConversationHistory nullAccessMessage).
Local Abbreviation fetchAndConvert' :=
  (fetchAndConvert getConversationUrl convertConversationHistory nullAccessMessage).
Local Abbreviation resume' :=
  (fetchAndConvert_resume convertConversationHistory nullAccessMessage).

(** X2.  Whatever its fetch delivers and whatever world the hook is in
    when it settles, the continuation of [loadHistory] issues no request,
    ends with [loading = false], and either sets [error] to a text and
    leaves [messages] and [sessionId] as they were at that moment, or
    leaves [error] as it was at that moment; and a call with both
    identifiers present starts by issuing exactly one request, to the
    conversation URL, setting [loading] and clearing [error] only. *)
Theorem loadHistory_always_settles (pn sid : string) (outcome : FetchOutcome) (w : World) :
  let w' := loadHistory_resume convertConversationHistory nullAccessMessage outcome w in
  loading (hstate w') = false /\
  fetched w' = fetched w /\
  ((exists text, error (hstate w') = Some text) /\
   messages (hstate w') = messages (hstate w) /\
   sessionId (hstate w') = sessionId (hstate w)
   \/
   error (hstate w') = error (hstate w)) /\
  (pn <> "" -> sid <> "" ->
   let started := loadHistory_begin getConversationUrl pn sid w in
   snd started = Some (getConversationUrl pn sid) /\
   fetched (fst started) = (fetched w ++ [getConversationUrl pn sid])%list /\
   hstate (fst started) =
   {| messages := messages (hstate w); loading := true; error := None;
      sessionId := sessionId (hstate w) |}).
Proof.
  intro w'. subst w'. split; [| split; [| split]].
  - destruct (resumeLoad_cases convertConversationHistory nullAccessMessage outcome w)
      as (ws & Hst & Hf & [(e & ->) | (converted & sid' & ->)]); reflexivity.
  - destruct (resumeLoad_cases convertConversationHistory nullAccessMessage outcome w)
      as (ws & Hst & Hf & [(e & ->) | (converted & sid' & ->)]); exact Hf.
  - destruct (resumeLoad_cases convertConversationHistory nullAccessMessage outcome w)
      as (ws & Hst & Hf & [(e & ->) | (converted & sid' & ->)]); simpl; rewrite Hst.
    + left. split; [eexists; reflexivity | split; reflexivity].
    + right. reflexivity.
  - intros Hp Hs started. subst started. unfold loadHistory_begin.
    rewrite (emptyString_false _ Hp), (emptyString_false _ Hs). simpl.
    repeat split.
Qed.

(** X3.  A successful [loadHistory] stores the conversion of the entries
    that pass the guard, in their order, and writes to the console exactly
    one "Skipping invalid message in history:" warning per entry that
    fails it, in their order. *)
Theorem loadHistory_warns_per_rejected_entry (pn sid : string) (r : Response)
    (hist : JsValue) (items : list JsValue) (converted : list AllMessage) (w : World) :
  pn <> "" -> sid <> "" -> ok r = true -> json r = inr hist ->
  propertyOf "messages" hist = JArray items ->
  convertConversationHistory (filter isTimestampedSDKMessage items) = inr converted ->
  let w' := runBody (loadHistory getConversationUrl convertConversationHistory
                       nullAccessMessage pn sid (FetchResolved r)) w in
  messages (hstate w') = converted /\
  console w' =
    (console w ++ map (ConsoleWarn "Skipping invalid message in history:")
                      (filter (fun m => negb (isTimestampedSDKMessage m)) items))%list.
Proof.
  intros Hp Hs Hok Hj Hm Hc w'. subst w'.
  rewrite (loadHistory_success getConversationUrl convertConversationHistory
             nullAccessMessage pn sid r hist items converted w Hp Hs Hok Hj Hm Hc).
  simpl.
  match goal with
  | |- context [fold_left ?f ?es ?w0] =>
      destruct (fold_logConsole_fields es w0) as (_ & _ & _ & Hcon & _)
  end.
  simpl in Hcon. rewrite Hcon. split; reflexivity.
Qed.

(** X4.  When the fetch of [loadHistory] rejects, or [response.json()]
    rejects on an ok response, [error] becomes the thrown [Error]'s
    message, or "Failed to load conversation history" when the thrown
    value is not an [Error]. *)
Theorem loadHistory_rejection_message (pn sid : string) (text : string) (v : JsValue)
    (st : nat) (txt : string) (w : World) :
  pn <> "" -> sid <> "" ->
  let load outcome := error (hstate (runBody (loadHistory getConversationUrl
                               convertConversationHistory nullAccessMessage
                               pn sid outcome) w)) in
  load (FetchRejected (ErrorObject text)) = Some text /\
  load (FetchRejected (ThrownValue v)) = Some "Failed to load conversation history" /\
  load (FetchResolved (mkResponse true st txt (inl (ErrorObject text)))) = Some text /\
  load (FetchResolved (mkResponse true st txt (inl (ThrownValue v))))
    = Some "Failed to load conversation history".
Proof.
  intros Hp Hs load. subst load. unfold loadHistory.
  rewrite (emptyString_false _ Hp), (emptyString_false _ Hs).
  repeat split.
Qed.

End HookExtras.

Section AutoLoaderExtras.

Variable getConversationUrl : string -> string -> string.
Variable convertConversationHistory : list JsValue -> Thrown + list AllMessage.
Variable nullAccessMessage : JsValue -> string -> string.

Local Abbreviation resume' :=
  (fetchAndConvert_resume convertConversationHistory nullAccessMessage).
Local Abbreviation step' := (step getConversationUrl convertConversationHistory nullAccessMessage).
Local Abbreviation reachable' :=
  (reachable getConversationUrl convertConversationHistory nullAccessMessage).

(** The continuation of a call that is not a poll, on a response with a
    messages array. *)
Lemma resume_load_array (r : Response) (hist : JsValue) (items : list JsValue)
    (w : World) :
  ok r = true -> json r = inr hist -> propertyOf "messages" hist = JArray items ->
  resume' false (FetchResolved r) w =
  match convertConversationHistory (filter isTimestampedSDKMessage items) with
  | inr converted =>
      setLastMessageCount (length items)
        (setState (loadedState converted (propertyOf "sessionId" hist)) w)
  | inl e =>
      setState (failedState e)
        (logConsole (ConsoleError "Error loading conversation history:" e) w)
  end.
Proof.
  intros H1 H2 H3. js_unfold. simpl. rewrite H1, H2.
  destruct hist; simpl in H3; try discriminate.
  simpl. rewrite H3. simpl. rewrite keepTimestamped_filter. simpl.
  destruct (convertConversationHistory _); reflexivity.
Qed.

(** Every way the continuation of a call that is not a poll can end. *)
Lemma resume_load_cases (outcome : FetchOutcome) (w : World) :
  (exists e,
     resume' false outcome w =
     setState (failedState e)
       (logConsole (ConsoleError "Error loading conversation history:" e) w))
  \/
  (exists converted sid n,
     resume' false outcome w =
     setLastMessageCount n (setState (loadedState converted sid) w)).
Proof.
  destruct outcome as [e | r].
  - left. now exists e.
  - js_unfold. simpl.
    destruct (ok r); simpl; [| left; eexists; reflexivity].
    destruct (json r) as [e | hist]; simpl; [left; eexists; reflexivity|].
    destruct hist; simpl; try (left; eexists; reflexivity).
    destruct (negb (truthy _) || negb (isArray _)); simpl; [left; eexists; reflexivity|].
    destruct (convertConversationHistory _); simpl.
    + left; eexists; reflexivity.
    + right. eexists _, _, _. reflexivity.
Qed.

Lemma resume_sameFetched (isPolling : bool) (outcome : FetchOutcome) (w : World) :
  sameFetched w (resume' isPolling outcome w).
Proof.
  apply (frame_resume sameFetched); unfold sameFetched;
    try (intros; reflexivity); intros; congruence.
Qed.

(** X5.  A load that is not a poll ([fetchAndConvert(false)]) does not
    look at the recorded count: when its ok response with a messages array
    arrives and the conversion returns, whatever the count then is, it
    stores the converted messages and the body's session id with
    [loading = false], leaves [error] as it is at that moment, and records
    the length of the fetched array, entries that fail the guard
    included. *)
Theorem load_ignores_recorded_count (r : Response) (hist : JsValue)
    (items : list JsValue) (converted : list AllMessage) (w : World) :
  ok r = true -> json r = inr hist -> propertyOf "messages" hist = JArray items ->
  convertConversationHistory (filter isTimestampedSDKMessage items) = inr converted ->
  let w' := fetchAndConvert_resume convertConversationHistory nullAccessMessage
              false (FetchResolved r) w in
  hstate w' = {| messages := converted; loading := false; error := error (hstate w);
                 sessionId := propertyOf "sessionId" hist |} /\
  lastMessageCountRef w' = length items.
Proof.
  intros Hok Hj Hm Hc w'. subst w'.
  rewrite (resume_load_array r hist items _ Hok Hj Hm), Hc. split; reflexivity.
Qed.

(** X6.  Whatever its fetch delivers and whatever world the hook is in
    when it settles, the continuation of a load that is not a poll issues
    no request, ends with [loading = false], and either sets [error] to a
    text and leaves [messages], [sessionId] and the recorded count as they
    were at that moment, or leaves [error] as it was at that moment; and
    such a load with both identifiers present starts by setting [loading]
    and clearing [error] only. *)
Theorem load_always_settles (p : Props) (outcome : FetchOutcome) (w : World) :
  let w' := fetchAndConvert_resume convertConversationHistory nullAccessMessage
              false outcome w in
  loading (hstate w') = false /\
  fetched w' = fetched w /\
  ((exists text, error (hstate w') = Some text) /\
   messages (hstate w') = messages (hstate w) /\
   sessionId (hstate w') = sessionId (hstate w) /\
   lastMessageCountRef w' = lastMessageCountRef w
   \/
   error (hstate w') = error (hstate w)) /\
  (absent (encodedProjectName p) || absent (sessionIdArg p) = false ->
   hstate (fst (fetchAndConvert_begin getConversationUrl p false w)) =
   {| messages := messages (hstate w); loading := true; error := None;
      sessionId := sessionId (hstate w) |}).
Proof.
  intro w'. subst w'. split; [| split; [| split]].
  - destruct (resume_load_cases outcome w) as [(e & ->) | (c & sid & n & ->)]; reflexivity.
  - apply resume_sameFetched.
  - destruct (resume_load_cases outcome w) as [(e & ->) | (c & sid & n & ->)]; simpl.
    + left. split; [eexists; reflexivity | repeat split].
    + right. reflexivity.
  - intro Hab. unfold fetchAndConvert_begin. rewrite Hab. reflexivity.
Qed.

(** X7.  A polling call never lowers the recorded count and never turns
    [loading] on: if [loading] holds after it, the hook state is the one
    from before the call. *)
Theorem polling_count_never_decreases (p : Props) (outcome : FetchOutcome) (w : World) :
  let w' := runBody (fetchAndConvert getConversationUrl convertConversationHistory
                       nullAccessMessage p true outcome) w in
  lastMessageCountRef w <= lastMessageCountRef w' /\
  (loading (hstate w') = true -> hstate w' = hstate w).
Proof.
  intro w'. subst w'. rewrite fetchAndConvert_split. unfold fetchAndConvert_begin.
  destruct (absent (encodedProjectName p) || absent (sessionIdArg p)).
  { split; [lia | reflexivity]. }
  simpl negb. cbv iota.
  match goal with |- context [resume' true outcome ?w1] =>
    destruct (resume_polling_cases convertConversationHistory nullAccessMessage outcome w1)
      as [-> | [(e & ->) | (r & hist & items & _ & _ & _ & _ & Hgt & ->)]] end;
    simpl in *.
  - split; [lia | reflexivity].
  - split; [lia | discriminate].
  - destruct (convertConversationHistory _); simpl; (split; [lia | discriminate]).
Qed.

(** X8.  One call of [fetchAndConvert], polling or not, whatever the
    fetch delivers: with both identifiers present it issues exactly one
    request, to the conversation URL; with one absent it issues none and
    leaves the world as it was. *)
Theorem fetchAndConvert_issues_one_request (p : Props) (isPolling : bool)
    (outcome : FetchOutcome) (w : World) :
  let w' := runBody (fetchAndConvert getConversationUrl convertConversationHistory
                       nullAccessMessage p isPolling outcome) w in
  (absent (encodedProjectName p) || absent (sessionIdArg p) = false ->
   fetched w' = (fetched w ++ [getConversationUrl (argText (encodedProjectName p))
                                                  (argText (sessionIdArg p))])%list) /\
  (absent (encodedProjectName p) || absent (sessionIdArg p) = true -> w' = w).
Proof.
  intro w'. subst w'. rewrite fetchAndConvert_split. unfold fetchAndConvert_begin.
  destruct (absent (encodedProjectName p) || absent (sessionIdArg p)).
  - split; [discriminate | reflexivity].
  - split; [intros _ | discriminate].
    rewrite resume_sameFetched. now destruct isPolling.
Qed.


Lemma tick_without_timer (t : positive) (s : Sys) :
  timers (world s) = [] -> step' (Tick t) s = s.
Proof. intro Ht. simpl. now rewrite Ht. Qed.

Lemma mounted_after_unmount (s : Sys) : mounted (step' Unmount s) = None.
Proof. simpl. now destruct (mounted s) eqn:Hm. Qed.

(** X10.  Once the hook is unmounted, or rendered with polling off (disabled
    or an identifier absent), a tick of any timer handle does nothing: no
    fetch is started and the state stays as it is. *)
Theorem no_poll_without_timer (s : Sys) (p : Props) (t : positive) :
  reachable getConversationUrl convertConversationHistory nullAccessMessage s ->
  step getConversationUrl convertConversationHistory nullAccessMessage (Tick t)
    (step getConversationUrl convertConversationHistory nullAccessMessage Unmount s)
  = step getConversationUrl convertConversationHistory nullAccessMessage Unmount s
  /\
  (pollingOn p = false ->
   step getConversationUrl convertConversationHistory nullAccessMessage (Tick t)
     (step getConversationUrl convertConversationHistory nullAccessMessage (Render p) s)
   = step getConversationUrl convertConversationHistory nullAccessMessage (Render p) s).
Proof.
  intros Hreach. split.
  - assert (reachable' (step' Unmount s)) as Hr by now constructor.
    pose proof (reachable_invariant _ _ _ _ Hr) as Hinv.
    unfold timerInvariant in Hinv. rewrite mounted_after_unmount in Hinv.
    destruct Hinv as (Ht & _). now apply tick_without_timer.
  - intros Hoff.
    assert (reachable' (step' (Render p) s)) as Hr by now constructor.
    pose proof (reachable_invariant _ _ _ _ Hr) as Hinv.
    unfold timerInvariant in Hinv.
    rewrite (mounted_after_render getConversationUrl convertConversationHistory
               nullAccessMessage p s), Hoff in Hinv.
    destruct Hinv as (Ht & _). now apply tick_without_timer.
Qed.

Lemma stopPolling_sameHookState (w : World) : sameHookState w (stopPolling w).
Proof. unfold stopPolling. destruct (pollingRef w); split; reflexivity. Qed.

Lemma pollingEffect_sameHookState (p : Props) (w : World) :
  sameHookState w (fst (pollingEffect p w)).
Proof.
  unfold pollingEffect.
  destruct (negb (enablePolling p) || absent (encodedProjectName p)
            || absent (sessionIdArg p)); simpl.
  - apply stopPolling_sameHookState.
  - destruct (stopPolling_sameHookState w) as [H1 H2]. split; simpl; assumption.
Qed.

Lemma stopPolling_sameFetched (w : World) : sameFetched w (stopPolling w).
Proof. unfold stopPolling, sameFetched. now destruct (pollingRef w). Qed.

Lemma initialLoadEffect_no_session (p : Props) (w : World) :
  absent (sessionIdArg p) = true ->
  initialLoadEffect getConversationUrl p w =
  (setLastMessageCount 0 (setState (fun _ => initialState) w), None).
Proof.
  intro Hs. unfold initialLoadEffect. rewrite Hs. simpl. now rewrite andb_false_r.
Qed.

Lemma pollingEffect_off (p : Props) (w : World) :
  pollingOn p = false -> pollingEffect p w = (stopPolling w, false).
Proof.
  unfold pollingOn, pollingEffect. intro Hoff.
  destruct (enablePolling p), (absent (encodedProjectName p)), (absent (sessionIdArg p));
    simpl in *; try discriminate; reflexivity.
Qed.

(** X11.  When the hook mounts, or an identifier changes, with no session
    id, the initial-load effect clears the hook: the state is the initial
    state, the recorded count is 0, no request is issued and no timer is
    left; requests already in flight stay in flight. *)
Theorem render_without_session_clears (s : Sys) (p : Props) :
  reachable getConversationUrl convertConversationHistory nullAccessMessage s ->
  (mounted s = None \/ exists q, mounted s = Some q /\ sameIdentifiers q p = false) ->
  absent (sessionIdArg p) = true ->
  let s' := step getConversationUrl convertConversationHistory nullAccessMessage
              (Render p) s in
  hstate (world s') = initialState /\
  lastMessageCountRef (world s') = 0 /\
  fetched (world s') = fetched (world s) /\
  pending s' = pending s /\
  timers (world s') = [].
Proof.
  intros Hreach Hdeps Hs s'.
  assert (reachable' s') as Hr by now constructor.
  pose proof (reachable_invariant _ _ _ _ Hr) as Hinv.
  unfold timerInvariant in Hinv. unfold s' in Hinv at 1.
  rewrite (mounted_after_render getConversationUrl convertConversationHistory
             nullAccessMessage p s) in Hinv.
  assert (pollingOn p = false) as Hoff.
  { unfold pollingOn. rewrite Hs. simpl. apply andb_false_r. }
  rewrite Hoff in Hinv. destruct Hinv as (Ht & _).
  assert (s' = runAllEffects getConversationUrl p s) as Hs'.
  { subst s'. simpl. destruct Hdeps as [-> | (q & -> & ->)]; reflexivity. }
  split; [| split; [| split; [| split]]]; try exact Ht; rewrite Hs';
    unfold runAllEffects;
    rewrite (initialLoadEffect_no_session p _ Hs), (pollingEffect_off p _ Hoff); simpl.
  - now destruct (stopPolling_sameHookState
                    (setLastMessageCount 0 (setState (fun _ => initialState)
                       (if cleanupArmed s then pollingCleanup (world s) else world s)))).
  - now destruct (stopPolling_sameHookState
                    (setLastMessageCount 0 (setState (fun _ => initialState)
                       (if cleanupArmed s then pollingCleanup (world s) else world s)))).
  - rewrite stopPolling_sameFetched. simpl.
    destruct (cleanupArmed s); [apply stopPolling_sameFetched | reflexivity].
  - reflexivity.
Qed.

Lemma initialLoadEffect_no_project (p : Props) (w : World) :
  absent (encodedProjectName p) = true -> absent (sessionIdArg p) = false ->
  initialLoadEffect getConversationUrl p w = (w, None).
Proof. intros Hp Hs. unfold initialLoadEffect. now rewrite Hp, Hs. Qed.

(** X17.  When the hook mounts, or an identifier changes, with a session
    id and no project name, nothing is loaded and nothing is cleared: the
    hook state and the recorded count stay as they were (the initial
    state and 0 when the hook mounts), no request is issued and no timer
    is left. *)
Theorem render_without_project_keeps_state (s : Sys) (p : Props) :
  reachable getConversationUrl convertConversationHistory nullAccessMessage s ->
  (mounted s = None \/ exists q, mounted s = Some q /\ sameIdentifiers q p = false) ->
  absent (encodedProjectName p) = true -> absent (sessionIdArg p) = false ->
  let s' := step getConversationUrl convertConversationHistory nullAccessMessage
              (Render p) s in
  hstate (world s') = hstate (world s) /\
  lastMessageCountRef (world s') = lastMessageCountRef (world s) /\
  fetched (world s') = fetched (world s) /\
  pending s' = pending s /\
  timers (world s') = [] /\
  (mounted s = None ->
   hstate (world s') = initialState /\ lastMessageCountRef (world s') = 0).
Proof.
  intros Hreach Hdeps Hp Hs s'.
  pose proof (reachable_fresh _ _ _ _ Hreach) as Hfresh.
  assert (reachable' s') as Hr by now constructor.
  pose proof (reachable_invariant _ _ _ _ Hr) as Hinv.
  unfold timerInvariant in Hinv. unfold s' in Hinv at 1.
  rewrite (mounted_after_render getConversationUrl convertConversationHistory
             nullAccessMessage p s) in Hinv.
  assert (pollingOn p = false) as Hoff.
  { unfold pollingOn. rewrite Hp. simpl. now rewrite andb_false_r. }
  rewrite Hoff in Hinv. destruct Hinv as (Ht & _).
  assert (s' = runAllEffects getConversationUrl p s) as Hs'.
  { subst s'. simpl. destruct Hdeps as [-> | (q & -> & ->)]; reflexivity. }
  set (w0 := if cleanupArmed s then pollingCleanup (world s) else world s).
  assert (sameHookState (world s) w0 /\ sameFetched (world s) w0) as [[H1 H2] H3].
  { subst w0. destruct (cleanupArmed s).
    - split; [apply stopPolling_sameHookState | apply stopPolling_sameFetched].
    - split; [split |]; reflexivity. }
  assert (hstate (world s') = hstate (world s) /\
          lastMessageCountRef (world s') = lastMessageCountRef (world s)) as [Hst Hcount].
  { rewrite Hs'. unfold runAllEffects; fold w0.
    rewrite (initialLoadEffect_no_project p _ Hp Hs), (pollingEffect_off p _ Hoff); simpl.
    destruct (stopPolling_sameHookState w0) as [-> ->]. now split. }
  split; [exact Hst|]. split; [exact Hcount|].
  split; [| split; [| split]].
  - rewrite Hs'. unfold runAllEffects; fold w0.
    rewrite (initialLoadEffect_no_project p _ Hp Hs), (pollingEffect_off p _ Hoff); simpl.
    rewrite stopPolling_sameFetched. exact H3.
  - rewrite Hs'. unfold runAllEffects; fold w0.
    now rewrite (initialLoadEffect_no_project p _ Hp Hs), (pollingEffect_off p _ Hoff).
  - exact Ht.
  - intro Hm. destruct (Hfresh Hm) as (Hi & Hz & _).
    rewrite Hst, Hcount. now split.
Qed.

End AutoLoaderExtras.

(* ================================================================== *)
(** ** Further properties of ChatMessages and MessageContainer *)

Lemma append_eq_cases (a b x y : string) :
  a ++ x = b ++ y ->
  (exists c, b = a ++ c /\ x = c ++ y) \/ (exists c, a = b ++ c /\ y = c ++ x).
Proof.
  revert b. induction a as [|ch a IH]; intros b H; simpl in *.
  - left. now exists b.
  - destruct b as [|ch' b]; simpl in *.
    + right. now exists (String ch a).
    + injection H as -> H. destruct (IH b H) as [(c & -> & ->) | (c & -> & ->)].
      * left. now exists c.
      * right. now exists c.
Qed.

Lemma occurs_append (c : ascii) (a b : string) :
  occurs c (a ++ b) = occurs c a || occurs c b.
Proof.
  induction a as [|ch a IH]; simpl; [reflexivity|].
  now rewrite IH, orb_assoc.
Qed.

(** The decimal text of a number holds no dash ... *)
Lemma natToString_no_dash (n : nat) : occurs "-" (natToString n) = false.
Proof.
  unfold natToString. induction (Nat.to_uint n); simpl; auto.
Qed.

(** ... and determines the number. *)
Lemma natToString_inj (n m : nat) : natToString n = natToString m -> n = m.
Proof.
  unfold natToString. intro H.
  apply DecimalNat.Unsigned.to_uint_inj.
  assert (Some (Nat.to_uint n) = Some (Nat.to_uint m)) as Hs
    by now rewrite <- !NilEmpty.usu, H.
  now injection Hs.
Qed.

Section ChatMessagesExtras.

Variables isSystemMessage isToolMessage isToolResultMessage isPlanMessage
          isThinkingMessage isTodoMessage isChatMessage : AllMessage -> bool.
Variable toText : JsValue -> string.

Local Abbreviation renderMessage' :=
  (renderMessage isSystemMessage isToolMessage isToolResultMessage isPlanMessage
     isThinkingMessage isTodoMessage isChatMessage toText).

(** The key determines the index it was built from. *)
Lemma messageKey_index (m1 m2 : AllMessage) (i j : nat) :
  messageKey toText m1 i = messageKey toText m2 j -> i = j.
Proof.
  unfold messageKey. intro H. apply natToString_inj.
  destruct (append_eq_cases _ _ _ _ H) as [(c & _ & Hc) | (c & _ & Hc)];
    destruct c as [|ch c]; simpl in Hc.
  - now injection Hc.
  - injection Hc as _ Hc.
    pose proof (natToString_no_dash i) as Hi. rewrite Hc, occurs_append in Hi.
    simpl in Hi. now rewrite orb_true_r in Hi.
  - now injection Hc.
  - injection Hc as _ Hc.
    pose proof (natToString_no_dash j) as Hj. rewrite Hc, occurs_append in Hj.
    simpl in Hj. now rewrite orb_true_r in Hj.
Qed.

(** X12.  Two messages rendered at different indices never get the
    same key, whatever their timestamps are. *)
Theorem messageKey_determines_index (m1 m2 : AllMessage) (i j : nat) :
  i <> j -> messageKey toText m1 i <> messageKey toText m2 j.
Proof. intros Hne Heq. apply Hne. exact (messageKey_index m1 m2 i j Heq). Qed.

Lemma renderMessage_key (m : AllMessage) (i : nat) (e : MessageElement) :
  renderMessage' m i = Some e -> keyOf e = messageKey toText m i.
Proof.
  unfold renderMessage.
  destruct (isSystemMessage m); [now intros [= <-]|].
  destruct (isToolMessage m); [now intros [= <-]|].
  destruct (isToolResultMessage m); [now intros [= <-]|].
  destruct (isPlanMessage m); [now intros [= <-]|].
  destruct (isThinkingMessage m); [now intros [= <-]|].
  destruct (isTodoMessage m); [now intros [= <-]|].
  destruct (isChatMessage m); [now intros [= <-]|].
  discriminate.
Qed.

Lemma keys_from (start : nat) (l : list AllMessage) (k : string) :
  In k (keysOf (mapFrom renderMessage' start l)) ->
  exists m j, start <= j /\ k = messageKey toText m j.
Proof.
  revert start. induction l as [|m rest IH]; intros start Hin; simpl in Hin.
  - contradiction.
  - destruct (renderMessage' m start) as [e|] eqn:He.
    + destruct Hin as [<- | Hin].
      * exists m, start. split; [lia | now apply renderMessage_key].
      * destruct (IH _ Hin) as (m' & j & Hj & ->). exists m', j. split; [lia | reflexivity].
    + destruct (IH _ Hin) as (m' & j & Hj & ->). exists m', j. split; [lia | reflexivity].
Qed.

Lemma keys_from_NoDup (start : nat) (l : list AllMessage) :
  NoDup (keysOf (mapFrom renderMessage' start l)).
Proof.
  revert start. induction l as [|m rest IH]; intro start; simpl.
  - constructor.
  - destruct (renderMessage' m start) as [e|] eqn:He; [| apply IH].
    constructor; [| apply IH].
    intro Hin. destruct (keys_from _ _ _ Hin) as (m' & j & Hj & Hk).
    rewrite (renderMessage_key _ _ _ He) in Hk.
    apply messageKey_index in Hk. lia.
Qed.

Lemma mapFrom_nth {A B : Type} (f : A -> nat -> B) (start : nat) (l : list A)
    (i : nat) (x : A) :
  nth_error l i = Some x -> nth_error (mapFrom f start l) i = Some (f x (start + i)).
Proof.
  revert start i. induction l as [|y rest IH]; intros start i H.
  - now destruct i.
  - destruct i as [|i]; simpl in *.
    + injection H as ->. now rewrite Nat.add_0_r.
    + rewrite (IH (S start) i H). f_equal. f_equal. lia.
Qed.

Lemma mapFrom_length {A B : Type} (f : A -> nat -> B) (start : nat) (l : list A) :
  length (mapFrom f start l) = length l.
Proof. revert start. induction l; intro; simpl; auto. Qed.

(** X13.  What [ChatMessages] shows: the empty state for an empty list,
    loading or not; for any other list one child per message, the child at
    position [i] being [renderMessage] of the message at [i] with index
    [i], the loading indicator exactly when [isLoading] holds, and the
    keys of the children that are not [null] pairwise different. *)
Theorem chatMessagesView_children (msgs : list AllMessage) (isLoading : bool) :
  let view := chatMessagesView isSystemMessage isToolMessage isToolResultMessage
                isPlanMessage isThinkingMessage isTodoMessage isChatMessage toText
                msgs isLoading in
  (msgs = [] -> view = EmptyStateView) /\
  (msgs <> [] ->
   exists children,
     view = MessageListView children isLoading /\
     length children = length msgs /\
     (forall i m, nth_error msgs i = Some m ->
        nth_error children i =
        Some (renderMessage isSystemMessage isToolMessage isToolResultMessage
                isPlanMessage isThinkingMessage isTodoMessage isChatMessage toText m i)) /\
     NoDup (keysOf children)).
Proof.
  intro view. subst view. unfold chatMessagesView. split.
  - now intros ->.
  - intro Hne. destruct msgs as [|m rest]; [congruence|].
    cbn [length Nat.eqb]. eexists. split; [reflexivity|]. split; [|split].
    + unfold arrayMap. apply (mapFrom_length _ 0 (m :: rest)).
    + intros i x Hx. unfold arrayMap. now rewrite (mapFrom_nth _ 0 _ i x Hx).
    + apply keys_from_NoDup.
Qed.

End ChatMessagesExtras.

Lemma repeat_snoc {A : Type} (x : A) (k : nat) : (repeat x k ++ [x])%list = repeat x (S k).
Proof. induction k; simpl; [reflexivity | now rewrite IHk]. Qed.

Lemma render_scrollInvariant (fresh : bool) (len : nat) (c : ChatMessagesInstance) :
  scrollInvariant c -> scrollInvariant (renderChatMessages fresh len c).
Proof.
  unfold scrollInvariant, renderChatMessages, initialScrollEffect, updateScrollEffect.
  destruct c as [[init prev reqs] last]; simpl.
  destruct init; simpl.
  - intros (-> & Hlast).
    destruct Hlast as [-> | ->]; simpl.
    + destruct len; simpl; [split; [reflexivity | now right]|].
      rewrite Nat.ltb_irrefl. now exists 0.
    + destruct len; simpl; [destruct fresh; split; (reflexivity || now right)|].
      rewrite Nat.ltb_irrefl. destruct fresh; now exists 0.
  - intros (k & ->).
    destruct last as [n|]; simpl;
      [destruct (negb (n =? len)), fresh; simpl|];
      try (now exists k);
      destruct (prev <? len); simpl; try (now exists k);
      exists (S k); simpl; now rewrite repeat_snoc.
Qed.

Lemma renderAll_scrollInvariant (renders : list (bool * nat)) (c : ChatMessagesInstance) :
  scrollInvariant c -> scrollInvariant (renderAll renders c).
Proof.
  revert c. induction renders as [|[fresh len] rest IH]; intros c Hc; simpl.
  - assumption.
  - apply IH. now apply render_scrollInvariant.
Qed.

(** X14.  Over any sequence of renders of a mounted [ChatMessages]: as
    long as the initial scroll has not happened no scroll has been asked
    for; once it has, the scrolls asked for are exactly one instant scroll
    followed by smooth scrolls only. *)
Theorem instant_scroll_once_and_first (renders : list (bool * nat)) :
  let r := scrollRefs (renderAll renders unmountedChatMessages) in
  (isInitialLoadRef r = true /\ scrollRequests r = []) \/
  (isInitialLoadRef r = false /\
   exists k, scrollRequests r = Instant :: repeat Smooth k).
Proof.
  intro r. subst r.
  assert (scrollInvariant (renderAll renders unmountedChatMessages)) as Hinv.
  { apply renderAll_scrollInvariant. split; [reflexivity | now left]. }
  unfold scrollInvariant in Hinv.
  destruct (isInitialLoadRef _); [left | right]; split; try reflexivity; apply Hinv.
Qed.

Lemma render_countInvariant (len : nat) (c : ChatMessagesInstance) :
  countInvariant c -> countInvariant (renderChatMessages true len c).
Proof.
  unfold countInvariant, renderChatMessages, initialScrollEffect, updateScrollEffect.
  destruct c as [[init prev reqs] last]; simpl.
  destruct init; simpl.
  - intros [-> | ->]; simpl; destruct len; simpl; auto.
  - intros ->. simpl. destruct (negb (prev =? len)); reflexivity.
Qed.

Lemma renderAll_countInvariant (renders : list (bool * nat)) (c : ChatMessagesInstance) :
  Forall (fun r => fst r = true) renders ->
  countInvariant c -> countInvariant (renderAll renders c).
Proof.
  revert c. induction renders as [|[fresh len] rest IH]; intros c Hall Hc; simpl.
  - assumption.
  - inversion Hall as [|? ? Hf Hrest]; subst. simpl in Hf. subst fresh.
    apply IH; [assumption | now apply render_countInvariant].
Qed.

(** X15.  When every render brings a new [messages] array, a render asks
    for a scroll exactly when the list is longer than at the previous
    render (longer than empty, at the first render): an instant scroll if
    none has happened yet, a smooth one afterwards, and never both. *)
Theorem scroll_iff_list_grew (renders : list (bool * nat)) (len : nat) :
  Forall (fun r => fst r = true) renders ->
  let c := renderAll renders unmountedChatMessages in
  let previous := match renderedLength c with Some n => n | None => 0 end in
  scrollRequests (scrollRefs (renderChatMessages true len c)) =
  (scrollRequests (scrollRefs c) ++
   (if previous <? len
    then [if isInitialLoadRef (scrollRefs c) then Instant else Smooth]
    else []))%list.
Proof.
  intros Hall c previous.
  assert (countInvariant c) as Hinv.
  { apply renderAll_countInvariant; [assumption | now left]. }
  subst previous. revert Hinv. generalize c. clear.
  intros [[init prev reqs] last].
  unfold countInvariant, renderChatMessages, initialScrollEffect, updateScrollEffect.
  simpl. destruct init; simpl.
  - intros [-> | ->]; simpl; destruct len; simpl; rewrite ?app_nil_r, ?Nat.ltb_irrefl;
      reflexivity.
  - intros ->. simpl.
    destruct (negb (prev =? len)); simpl; destruct (prev <? len); simpl;
      rewrite ?app_nil_r; reflexivity.
Qed.

(** X16.  The classes [MessageContainer] gives its two [div]s: the outer
    one is centred exactly for a centre alignment and left-justified
    otherwise, a right alignment included, so "justify-end" is never
    used; the inner one is full width with the user bubble exactly for a
    right alignment; and the colour scheme ends the inner class. *)
Theorem messageContainer_classes (alignment : Alignment) (colorScheme : string) :
  let c := messageContainer alignment colorScheme in
  (outerClass c = "mb-6 flex justify-center" <-> alignment = AlignCenter) /\
  (outerClass c = "mb-6 flex justify-start" <-> alignment <> AlignCenter) /\
  (innerClass c =
     "w-full rounded-xl px-4 py-3 transition-colors duration-200 mava-user-bubble shadow-sm "
     ++ colorScheme
   <-> alignment = AlignRight) /\
  (innerClass c =
     "max-w-[85%] sm:max-w-[75%] rounded-xl px-4 py-3 transition-colors duration-200 mava-assistant-bubble "
     ++ colorScheme
   <-> alignment <> AlignRight).
Proof.
  destruct alignment; simpl; repeat split; intros; try congruence; try discriminate.
Qed.

(* ================================================================== *)
(** ** Further instances on the sample environment *)

Lemma loadHistory_always_settles_witness :
  fetched (fst (loadHistory_begin sampleUrl "proj" "s1" loadedWorld))
  = (fetched loadedWorld ++ [sampleUrl "proj" "s1"])%list.
Proof.
  assert ("proj" <> "") as Hp by discriminate.
  assert ("s1" <> "") as Hs by discriminate.
  exact (proj1 (proj2 (proj2 (proj2 (proj2
           (loadHistory_always_settles sampleUrl sampleConvert sampleNullMessage
              "proj" "s1" (FetchRejected (ThrownValue JNull)) loadedWorld)))
           Hp Hs))).
Defined.

Lemma loadHistory_warns_witness :
  console (runBody (loadHistory sampleUrl sampleConvert sampleNullMessage "proj" "s1"
                      (FetchResolved (okResponse
                         (sampleHistory [strayEntry; userMessage "a"; JNull]))))
             initialWorld)
  = [ConsoleWarn "Skipping invalid message in history:" strayEntry;
     ConsoleWarn "Skipping invalid message in history:" JNull].
Proof.
  assert ("proj" <> "") as Hp by discriminate.
  assert ("s1" <> "") as Hs by discriminate.
  exact (proj2 (loadHistory_warns_per_rejected_entry sampleUrl sampleConvert
                  sampleNullMessage "proj" "s1"
                  (okResponse (sampleHistory [strayEntry; userMessage "a"; JNull]))
                  (sampleHistory [strayEntry; userMessage "a"; JNull])
                  [strayEntry; userMessage "a"; JNull] [userMessage "a"] initialWorld
                  Hp Hs eq_refl eq_refl eq_refl eq_refl)).
Defined.

Lemma loadHistory_rejection_witness :
  error (hstate (runBody (loadHistory sampleUrl sampleConvert sampleNullMessage "proj" "s1"
                            (FetchRejected (ErrorObject "Failed to fetch"))) loadedWorld))
  = Some "Failed to fetch".
Proof.
  assert ("proj" <> "") as Hp by discriminate.
  assert ("s1" <> "") as Hs by discriminate.
  exact (proj1 (loadHistory_rejection_message sampleUrl sampleConvert sampleNullMessage
                  "proj" "s1" "Failed to fetch" JNull 200 "OK" loadedWorld Hp Hs)).
Defined.

Lemma load_ignores_recorded_count_witness :
  lastMessageCountRef
    (fetchAndConvert_resume sampleConvert sampleNullMessage false
       (FetchResolved (okResponse (sampleHistory [strayEntry]))) loadedWorld)
  = 1.
Proof.
  exact (proj2 (load_ignores_recorded_count sampleConvert sampleNullMessage
                  (okResponse (sampleHistory [strayEntry]))
                  (sampleHistory [strayEntry]) [strayEntry] [] loadedWorld
                  eq_refl eq_refl eq_refl eq_refl)).
Defined.

Lemma load_always_settles_witness :
  loading (hstate (fetchAndConvert_resume sampleConvert sampleNullMessage false
                     (FetchResolved notFoundResponse) loadedWorld))
  = false.
Proof.
  exact (proj1 (load_always_settles sampleUrl sampleConvert sampleNullMessage
                  sampleProps (FetchResolved notFoundResponse) loadedWorld)).
Defined.


Lemma no_poll_without_timer_witness :
  step sampleUrl sampleConvert sampleNullMessage (Tick 1%positive)
    (step sampleUrl sampleConvert sampleNullMessage Unmount
       (step sampleUrl sampleConvert sampleNullMessage (Render sampleProps) initialSys))
  = step sampleUrl sampleConvert sampleNullMessage Unmount
      (step sampleUrl sampleConvert sampleNullMessage (Render sampleProps) initialSys).
Proof.
  assert (reachable sampleUrl sampleConvert sampleNullMessage
            (step sampleUrl sampleConvert sampleNullMessage (Render sampleProps) initialSys))
    as Hreach by (constructor; constructor).
  exact (proj1 (no_poll_without_timer sampleUrl sampleConvert sampleNullMessage
                  _ sampleProps 1%positive Hreach)).
Defined.

Lemma render_without_session_witness :
  hstate (world (step sampleUrl sampleConvert sampleNullMessage (Render noSessionProps)
                   (run sampleUrl sampleConvert sampleNullMessage overlappingPolls
                      initialSys)))
  = initialState.
Proof.
  assert (reachable sampleUrl sampleConvert sampleNullMessage
            (run sampleUrl sampleConvert sampleNullMessage overlappingPolls initialSys))
    as Hreach by (apply reachable_run; constructor).
  refine (proj1 (render_without_session_clears sampleUrl sampleConvert sampleNullMessage
                   _ noSessionProps Hreach _ eq_refl)).
  right. exists sampleProps. split; reflexivity.
Defined.

Lemma messageKey_witness :
  messageKey sampleToText (userMessage "a") 1 <> messageKey sampleToText (userMessage "a") 11.
Proof.
  apply (messageKey_determines_index sampleToText). discriminate.
Defined.

Lemma scroll_witness :
  scrollRequests (scrollRefs (renderAll [(true, 0); (true, 2); (true, 2); (true, 5)]
                                unmountedChatMessages))
  = [Instant; Smooth].
Proof.
  assert (Forall (fun r : bool * nat => fst r = true) [(true, 0); (true, 2); (true, 2)])
    as Hall by (repeat constructor).
  exact (scroll_iff_list_grew [(true, 0); (true, 2); (true, 2)] 5 Hall).
Defined.

Lemma render_without_project_witness :
  hstate (world (step sampleUrl sampleConvert sampleNullMessage (Render noProjectProps)
                   (run sampleUrl sampleConvert sampleNullMessage overlappingPolls
                      initialSys)))
  = hstate (world (run sampleUrl sampleConvert sampleNullMessage overlappingPolls
                     initialSys))
  /\
  hstate (world (run sampleUrl sampleConvert sampleNullMessage remountWithoutProject
                   initialSys))
  = initialState.
Proof.
  split.
  - assert (reachable sampleUrl sampleConvert sampleNullMessage
              (run sampleUrl sampleConvert sampleNullMessage overlappingPolls initialSys))
      as Hreach by (apply reachable_run; constructor).
    refine (proj1 (render_without_project_keeps_state sampleUrl sampleConvert
                     sampleNullMessage _ noProjectProps Hreach _ eq_refl eq_refl)).
    right. exists sampleProps. split; reflexivity.
  - assert (reachable sampleUrl sampleConvert sampleNullMessage
              (run sampleUrl sampleConvert sampleNullMessage
                 (firstn 3 remountWithoutProject) initialSys))
      as Hreach by (apply reachable_run; constructor).
    assert (mounted (run sampleUrl sampleConvert sampleNullMessage
                       (firstn 3 remountWithoutProject) initialSys) = None)
      as Hm by reflexivity.
    exact (proj1 (proj2 (proj2 (proj2 (proj2 (proj2
             (render_without_project_keeps_state sampleUrl sampleConvert
                sampleNullMessage _ noProjectProps Hreach (or_introl Hm)
                eq_refl eq_refl))))) Hm)).
Defined.
